(** * Lapse developer API: OAuth client registry, grants and scope enforcement

    Shallow embedding of
    - [src/apps/web/src/server/routers/api/developer.ts] (the [developer]
      router: rotateAppSecret, updateApp, revokeApp, getAllOwnedApps,
      createApp, getAllApps, updateAppTrustLevel, revokeOAuthGrant, and the
      DTO mappers), and
    - the scope-aware [protectedProcedure] middleware of [server/trpc.ts]
      (the second [trpc.ts] concatenated in the same source file), and the
      REST [createContext] of [pages/api/rest/[...trpc].ts].

    The relational store (Prisma) is a record of finite maps keyed by row id.
    Every router operation is a function [Store -> Outcome A * Store]. *)

From Stdlib Require Import String List Bool Arith Lia.
From stdpp Require Import base gmap strings list sorting.
Import ListNotations.
Local Open Scope string_scope.

(* ------------------------------------------------------------------ *)
(** ** Rows of the store (Prisma models) *)

Inductive OAuthTrustLevel := UNTRUSTED | TRUSTED.

(** Timestamps ([Date]) as milliseconds. *)
Abbreviation Date := nat (only parsing).

Module User.
Record t := mk {
  id : string;
  handle : string;
  displayName : string
}.
End User.

Module ServiceClient.
(** [db.ServiceClient]; [clientSecretHash] is the stored verifier of the
    secret (the plaintext is never stored). *)
Record t := mk {
  id : string;
  name : string;
  description : string;
  homepageUrl : string;
  iconUrl : string;
  redirectUris : list string;
  scopes : list string;
  trustLevel : OAuthTrustLevel;
  clientId : string;
  clientSecretHash : string;
  createdByUserId : string;
  createdAt : Date;
  revokedAt : option Date
}.

Definition set_revokedAt (d : option Date) (c : t) : t :=
  mk (id c) (name c) (description c) (homepageUrl c) (iconUrl c)
     (redirectUris c) (scopes c) (trustLevel c) (clientId c)
     (clientSecretHash c) (createdByUserId c) (createdAt c) d.

Definition set_trustLevel (l : OAuthTrustLevel) (c : t) : t :=
  mk (id c) (name c) (description c) (homepageUrl c) (iconUrl c)
     (redirectUris c) (scopes c) l (clientId c)
     (clientSecretHash c) (createdByUserId c) (createdAt c) (revokedAt c).

Definition set_clientSecretHash (h : string) (c : t) : t :=
  mk (id c) (name c) (description c) (homepageUrl c) (iconUrl c)
     (redirectUris c) (scopes c) (trustLevel c) (clientId c)
     h (createdByUserId c) (createdAt c) (revokedAt c).
End ServiceClient.

Module ServiceGrant.
Record t := mk {
  id : string;
  userId : string;
  serviceClientId : string;
  scopes : list string;
  createdAt : Date;
  lastUsedAt : option Date;
  revokedAt : option Date
}.

Definition set_revokedAt (d : option Date) (g : t) : t :=
  mk (id g) (userId g) (serviceClientId g) (scopes g) (createdAt g)
     (lastUsedAt g) d.
End ServiceGrant.

Record Store := mkStore {
  users : gmap string User.t;
  serviceClients : gmap string ServiceClient.t;
  serviceGrants : gmap string ServiceGrant.t
}.

(* ------------------------------------------------------------------ *)
(** ** API results ([apiOk] / [apiErr] of [@/shared/common]) *)

Inductive ApiErrorKind := NOT_FOUND | NO_PERMISSION | ERROR.

(** [Thrown] is an exception escaping the handler (e.g. a Prisma error). *)
Inductive Outcome (A : Type) :=
| apiOk (a : A)
| apiErr (kind : ApiErrorKind) (message : string)
| Thrown (reason : string).
Arguments apiOk {A} a.
Arguments apiErr {A} kind message.
Arguments Thrown {A} reason.

(** JavaScript truthiness of [null]-able values in [if (x || y)]. *)
Definition truthy_string (o : option string) : bool :=
  match o with Some s => negb (String.eqb s "") | None => false end.

Definition truthy_list {A} (o : option (list A)) : bool :=
  match o with Some _ => true | None => false end.

(** [x === null] for a nullable column. *)
Definition is_null {A} (o : option A) : bool :=
  match o with Some _ => false | None => true end.

(** [a ?? b] *)
Definition nullish {A} (o : option A) (d : A) : A :=
  match o with Some a => a | None => d end.

(** [xs.includes(x)] / [set.has(x)] on strings. *)
Definition includes (xs : list string) (x : string) : bool :=
  existsb (String.eqb x) xs.

(** [xs.join(sep)] *)
Fixpoint join (sep : string) (xs : list string) : string :=
  match xs with
  | [] => ""
  | [x] => x
  | x :: rest => x ++ sep ++ join sep rest
  end.

(* ------------------------------------------------------------------ *)
(** ** Scope-aware [protectedProcedure] middleware (server/trpc.ts) *)

Module Trpc.
Record Context := mkContext {
  user : option User.t;
  scopes : list string;
  actor : option ServiceClient.t
}.

Inductive TRPCErrorCode := UNAUTHORIZED | FORBIDDEN.

Inductive Middleware :=
| Next (ctx : Context)
| TRPCError (code : TRPCErrorCode) (message : string).

(** The body of [t.procedure.use(async (opts) => ...)] in
    [protectedProcedure(requiredScopes)]. *)
Definition protectedProcedure (requiredScopes : list string) (ctx : Context)
  : Middleware :=
  let scopes := scopes ctx in
  match user ctx with
  | None => TRPCError UNAUTHORIZED "Authentication required"
  | Some u =>
      if Nat.ltb 0 (List.length requiredScopes) && Nat.ltb 0 (List.length scopes) then
        let missingScopes :=
          List.filter (fun scope => negb (includes scopes scope)) requiredScopes in
        if Nat.ltb 0 (List.length missingScopes) then
          TRPCError FORBIDDEN "Missing required OAuth scope"
        else Next (mkContext (Some u) scopes (actor ctx))
      else Next (mkContext (Some u) scopes (actor ctx))
  end.

Definition allowed (m : Middleware) : bool :=
  match m with Next _ => true | TRPCError _ _ => false end.

(** The non-REST [createContext]: a first-party session context. *)
Definition createContext (u : option User.t) : Context :=
  mkContext u [] None.
End Trpc.

(* ------------------------------------------------------------------ *)
(** ** Scope catalog and scope normalisation *)

(** Modelled from the spec: [getAllOAuthScopes] of [@/shared/oauthScopes]
    is not in the sources; the catalog is the fixed list of grantable scopes
    that [restOpenapi.ts] publishes for the OAuth2 flow. *)
Definition getAllOAuthScopes : list string :=
  [ "timelapse:read"; "timelapse:write"; "user:read"; "user:write";
    "snapshot:read"; "snapshot:write"; "comment:read"; "comment:write";
    "global:read" ].

(** The code units [String.prototype.trim] strips: ECMA-262's WhiteSpace
    and LineTerminator. A [string] stands for a JavaScript string whose code
    units are all below 256 (one [Ascii.ascii] per code unit, read as
    ISO-8859-1); in that range these are exactly TAB, LF, VT, FF, CR (9 to
    13), SPACE (32) and NO-BREAK SPACE (160). The others (U+1680,
    U+2000..U+200A, U+2028, U+2029, U+202F, U+205F, U+3000, U+FEFF) are
    above 255. *)
Definition is_space (c : Ascii.ascii) : bool :=
  let n := Ascii.nat_of_ascii c in
  (Nat.leb 9 n && Nat.leb n 13) || Nat.eqb n 32 || Nat.eqb n 160.

Fixpoint trim_start (s : string) : string :=
  match s with
  | EmptyString => EmptyString
  | String c rest => if is_space c then trim_start rest else s
  end.

Definition string_rev (s : string) : string :=
  string_of_list_ascii (rev (list_ascii_of_string s)).

(** [s.trim()] *)
Definition trim (s : string) : string :=
  string_rev (trim_start (string_rev (trim_start s))).

Example trim_strips_vt_nbsp :
  trim (String (Ascii.ascii_of_nat 11) (String (Ascii.ascii_of_nat 160)
          "https://a.example.com/cb ")) = "https://a.example.com/cb".
Proof. reflexivity. Qed.

Fixpoint dedupe_from (seen : list string) (xs : list string) : list string :=
  match xs with
  | [] => []
  | x :: rest =>
      if includes seen x then dedupe_from seen rest
      else x :: dedupe_from (x :: seen) rest
  end.

(** Modelled from the spec: [normalizeScopes] of [serviceClientService] is
    not in the sources; the spec (4.1) says: trim, dedupe, preserve
    first-seen order. *)
Definition normalizeScopes (xs : list string) : list string :=
  dedupe_from [] (map trim xs).

(** [requestedScopes.filter(scope => !validScopes.has(scope))] *)
Definition invalidScopesOf (requestedScopes : list string) : list string :=
  List.filter (fun scope => negb (includes getAllOAuthScopes scope)) requestedScopes.

Definition unknownScopesMessage (invalidScopes : list string) : string :=
  "Unknown scopes: " ++ join ", " invalidScopes.

Definition redirectMismatchMessage : string :=
  "Redirect URIs must match the homepage domain.".

Definition appNotFoundMessage (id : string) : string :=
  "App with ID " ++ id ++ " not found.".

Definition grantNotFoundMessage (id : string) : string :=
  "Grant with ID " ++ id ++ " not found.".

Definition grantNoPermissionMessage : string :=
  "You do not have permission to revoke this grant.".

(* ------------------------------------------------------------------ *)
(** ** DTOs *)

Module OAuthApp.
Record CreatedBy := mkCreatedBy {
  cb_id : string;
  cb_handle : string;
  cb_displayName : string
}.

(** [OAuthAppSchema]; [createdAt] stands for [createdAt.toISOString()]. *)
Record t := mk {
  id : string;
  name : string;
  description : string;
  homepageUrl : string;
  iconUrl : string;
  redirectUris : list string;
  scopes : list string;
  trustLevel : OAuthTrustLevel;
  clientId : string;
  createdBy : CreatedBy;
  createdAt : Date
}.
End OAuthApp.

(** [DbOAuthApp = db.ServiceClient & { createdByUser: db.User }] *)
Definition DbOAuthApp : Type := ServiceClient.t * User.t.

Definition dtoOAuthApp (entity : DbOAuthApp) : OAuthApp.t :=
  let '(c, u) := entity in
  OAuthApp.mk (ServiceClient.id c) (ServiceClient.name c)
    (ServiceClient.description c) (ServiceClient.homepageUrl c)
    (ServiceClient.iconUrl c) (ServiceClient.redirectUris c)
    (ServiceClient.scopes c) (ServiceClient.trustLevel c)
    (ServiceClient.clientId c)
    (OAuthApp.mkCreatedBy (User.id u) (User.handle u) (User.displayName u))
    (ServiceClient.createdAt c).

(* ------------------------------------------------------------------ *)
(** ** Prisma queries used by the router *)

(** [serviceClient.findFirst({ where: { id, createdByUserId, revokedAt: null } })] *)
Definition findActiveOwnedClient (st : Store) (id owner : string)
  : option ServiceClient.t :=
  match serviceClients st !! id with
  | Some c =>
      if String.eqb (ServiceClient.createdByUserId c) owner
         && is_null (ServiceClient.revokedAt c)
      then Some c else None
  | None => None
  end.

Definition setClient (st : Store) (id : string) (c : ServiceClient.t) : Store :=
  mkStore (users st) (<[id := c]> (serviceClients st)) (serviceGrants st).

Definition setGrant (st : Store) (id : string) (g : ServiceGrant.t) : Store :=
  mkStore (users st) (serviceClients st) (<[id := g]> (serviceGrants st)).

(** The scope check shared by createApp and updateApp: the normalised list,
    or the error message naming every unknown scope. *)
Definition validateScopes (scopes : list string) : string + list string :=
  let requestedScopes := normalizeScopes scopes in
  let invalidScopes := invalidScopesOf requestedScopes in
  if Nat.ltb 0 (List.length invalidScopes)
  then inl (unknownScopesMessage invalidScopes)
  else inr requestedScopes.

Module UpdateAppInput.
Record t := mk {
  id : string;
  name : option string;
  description : option string;
  homepageUrl : option string;
  iconUrl : option string;
  redirectUris : option (list string);
  scopes : option (list string)
}.
End UpdateAppInput.

Module CreateAppInput.
Record t := mk {
  name : string;
  description : string;
  homepageUrl : string;
  iconUrl : string;
  redirectUris : list string;
  scopes : list string
}.
End CreateAppInput.

(* ------------------------------------------------------------------ *)
(** ** On-behalf-of tokens *)

Module Obo.
(** The decoded OBO token ([generateOboJWT(userId, email, actorId, scopes,
    ttl)] of [@/server/auth]); [signatureValid] is the outcome of the
    signature check on the raw JWT. *)
Record Token := mk {
  subjectUserId : string;
  actorClientId : string;
  scopes : list string;
  issuedAt : Date;
  expiresAt : Date;
  signatureValid : bool
}.

Inductive VerificationError := Malformed | Expired | NotFound | Revoked.

Definition grantMatches (tok : Token) (g : ServiceGrant.t) : bool :=
  String.eqb (ServiceGrant.userId g) (subjectUserId tok)
  && String.eqb (ServiceGrant.serviceClientId g) (actorClientId tok).

Definition grantsFor (st : Store) (tok : Token) : list ServiceGrant.t :=
  List.filter (grantMatches tok) (map_to_list (serviceGrants st)).*2.

(** Modelled from the spec: the verifier behind [getRestAuthContext] of
    [@/server/auth] is not in the sources. Per the spec (4.4, 5) it checks
    the signature, then the expiry ([now < expiresAt], else Expired), then
    reads the acting client and the user's grants for it from the store on
    every call: an absent client or grant is NotFound, a revoked client or
    the absence of any non-revoked grant is Revoked. On success the
    request context is (user, actor, token scopes). *)
Definition verify (st : Store) (now : Date) (tok : Token)
  : Trpc.Context + VerificationError :=
  if negb (signatureValid tok) then inr Malformed
  else if Nat.leb (expiresAt tok) now then inr Expired
  else match serviceClients st !! actorClientId tok with
  | None => inr NotFound
  | Some client =>
      if negb (is_null (ServiceClient.revokedAt client)) then inr Revoked
      else
        let gs := grantsFor st tok in
        if Nat.eqb (List.length gs) 0 then inr NotFound
        else if negb (existsb (fun g => is_null (ServiceGrant.revokedAt g)) gs)
        then inr Revoked
        else match users st !! subjectUserId tok with
        | None => inr NotFound
        | Some u => inl (Trpc.mkContext (Some u) (scopes tok) (Some client))
        end
  end.
End Obo.

Definition createdAtDesc (a b : ServiceClient.t) : Prop :=
  (ServiceClient.createdAt b <= ServiceClient.createdAt a)%nat.

#[global] Instance createdAtDesc_dec : RelDecision createdAtDesc :=
  fun a b => decide (ServiceClient.createdAt b <= ServiceClient.createdAt a)%nat.

(* ------------------------------------------------------------------ *)
(** ** The [developer] router *)

Section Router.
(** [new URL(s).hostname] *)
Variable hostname : string -> string.
(** [normalizeRedirectUris] of [serviceClientService] (not in the sources). *)
Variable normalizeRedirectUris : list string -> list string.
(** The verifier derived from a plaintext secret (a salted hash). *)
Variable hashSecret : string -> string.

(** [uris.filter(uri => new URL(uri).hostname !== homepageHost)] *)
Definition mismatchedRedirects (homepageUrl : string) (uris : list string)
  : list string :=
  let homepageHost := hostname homepageUrl in
  List.filter (fun uri => negb (String.eqb (hostname uri) homepageHost)) uris.

(** Modelled from the spec: [rotateServiceClientSecret] of
    [serviceClientService] is not in the sources; per the spec (4.2) it
    replaces the stored verifier by the verifier of a fresh secret in one
    update and returns the new plaintext secret. *)
Definition rotateServiceClientSecret (st : Store) (id newSecret : string)
  : Outcome string * Store :=
  match serviceClients st !! id with
  | Some c =>
      (apiOk newSecret,
       setClient st id (ServiceClient.set_clientSecretHash (hashSecret newSecret) c))
  | None => (Thrown "Record to update not found.", st)
  end.

Definition rotateAppSecret (st : Store) (requester id newSecret : string)
  : Outcome string * Store :=
  match findActiveOwnedClient st id requester with
  | None => (apiErr NOT_FOUND (appNotFoundMessage id), st)
  | Some app => rotateServiceClientSecret st id newSecret
  end.

Definition updateApp (st : Store) (requester : string) (input : UpdateAppInput.t)
  : Outcome OAuthApp.t * Store :=
  let id := UpdateAppInput.id input in
  match findActiveOwnedClient st id requester with
  | None => (apiErr NOT_FOUND (appNotFoundMessage id), st)
  | Some app =>
      let scopeCheck :=
        match UpdateAppInput.scopes input with
        | Some scopes =>
            match validateScopes scopes with
            | inl msg => inl msg
            | inr requestedScopes => inr (Some requestedScopes)
            end
        | None => inr None
        end in
      match scopeCheck with
      | inl msg => (apiErr ERROR msg, st)
      | inr normalizedScopes =>
          if (truthy_string (UpdateAppInput.homepageUrl input)
              || truthy_list (UpdateAppInput.redirectUris input))
             && Nat.ltb 0 (List.length (mismatchedRedirects
                  (nullish (UpdateAppInput.homepageUrl input) (ServiceClient.homepageUrl app))
                  (nullish (UpdateAppInput.redirectUris input) (ServiceClient.redirectUris app))))
          then (apiErr ERROR redirectMismatchMessage, st)
          else
            let updated :=
              ServiceClient.mk (ServiceClient.id app)
                (nullish (UpdateAppInput.name input) (ServiceClient.name app))
                (nullish (UpdateAppInput.description input) (ServiceClient.description app))
                (nullish (UpdateAppInput.homepageUrl input) (ServiceClient.homepageUrl app))
                (nullish (UpdateAppInput.iconUrl input) (ServiceClient.iconUrl app))
                (nullish (option_map normalizeRedirectUris (UpdateAppInput.redirectUris input))
                         (ServiceClient.redirectUris app))
                (nullish normalizedScopes (ServiceClient.scopes app))
                (ServiceClient.trustLevel app) (ServiceClient.clientId app)
                (ServiceClient.clientSecretHash app) (ServiceClient.createdByUserId app)
                (ServiceClient.createdAt app) (ServiceClient.revokedAt app) in
            let st' := setClient st id updated in
            match users st' !! ServiceClient.createdByUserId updated with
            | Some u => (apiOk (dtoOAuthApp (updated, u)), st')
            | None => (Thrown "Inconsistent query result: createdByUser", st')
            end
      end
  end.
Definition revokeApp (st : Store) (requester id : string) (now : Date)
  : Outcome unit * Store :=
  match findActiveOwnedClient st id requester with
  | None => (apiErr NOT_FOUND (appNotFoundMessage id), st)
  | Some app =>
      (apiOk tt, setClient st id (ServiceClient.set_revokedAt (Some now) app))
  end.

(** [include: { createdByUser: true }] on a list of rows. *)
Definition includeCreatedByUser (st : Store) (cs : list ServiceClient.t)
  : list DbOAuthApp :=
  omap (fun c => (fun u => (c, u)) <$> users st !! ServiceClient.createdByUserId c) cs.

(** [orderBy: { createdAt: "desc" }] *)
Definition orderByCreatedAtDesc (cs : list ServiceClient.t) : list ServiceClient.t :=
  merge_sort createdAtDesc cs.

Definition getAllOwnedApps (st : Store) (requester : string)
  : Outcome (list OAuthApp.t) :=
  let apps :=
    List.filter (fun c => String.eqb (ServiceClient.createdByUserId c) requester
                     && is_null (ServiceClient.revokedAt c))
      (map_to_list (serviceClients st)).*2 in
  apiOk (map dtoOAuthApp (includeCreatedByUser st (orderByCreatedAtDesc apps))).

Definition getAllApps (st : Store) : Outcome (list OAuthApp.t) :=
  let apps :=
    List.filter (fun c => is_null (ServiceClient.revokedAt c))
      (map_to_list (serviceClients st)).*2 in
  apiOk (map dtoOAuthApp (includeCreatedByUser st (orderByCreatedAtDesc apps))).

(** Modelled from the spec: [createServiceClient] of [serviceClientService]
    is not in the sources; per the spec (3, 4.2) it inserts an active,
    untrusted client under fresh identifiers, stores only the verifier of
    the generated secret, and returns the row (with its owner) and the
    plaintext secret. *)
Definition createServiceClient (st : Store)
    (newId newClientId newSecret : string) (now : Date)
    (name description homepageUrl iconUrl : string)
    (redirectUris scopes : list string) (createdByUserId : string)
  : Outcome (DbOAuthApp * string) * Store :=
  match serviceClients st !! newId, users st !! createdByUserId with
  | Some _, _ => (Thrown "Unique constraint failed on the fields: (id)", st)
  | None, None => (Thrown "Foreign key constraint failed: createdByUserId", st)
  | None, Some u =>
      let client :=
        ServiceClient.mk newId name description homepageUrl iconUrl
          redirectUris scopes UNTRUSTED newClientId (hashSecret newSecret)
          createdByUserId now None in
      (apiOk ((client, u), newSecret), setClient st newId client)
  end.

Definition createApp (st : Store) (requester : string) (input : CreateAppInput.t)
    (newId newClientId newSecret : string) (now : Date)
  : Outcome (OAuthApp.t * string) * Store :=
  match validateScopes (CreateAppInput.scopes input) with
  | inl msg => (apiErr ERROR msg, st)
  | inr requestedScopes =>
      let redirectUris := normalizeRedirectUris (CreateAppInput.redirectUris input) in
      if Nat.ltb 0 (List.length
            (mismatchedRedirects (CreateAppInput.homepageUrl input) redirectUris))
      then (apiErr ERROR redirectMismatchMessage, st)
      else
        match createServiceClient st newId newClientId newSecret now
                (CreateAppInput.name input) (CreateAppInput.description input)
                (CreateAppInput.homepageUrl input) (CreateAppInput.iconUrl input)
                redirectUris requestedScopes requester with
        | (apiOk (client, clientSecret), st') =>
            (apiOk (dtoOAuthApp client, clientSecret), st')
        | (apiErr k m, st') => (apiErr k m, st')
        | (Thrown r, st') => (Thrown r, st')
        end
  end.

Definition updateAppTrustLevel (st : Store) (id : string) (trustLevel : OAuthTrustLevel)
  : Outcome OAuthTrustLevel * Store :=
  match serviceClients st !! id with
  | None => (apiErr NOT_FOUND (appNotFoundMessage id), st)
  | Some app =>
      let updated := ServiceClient.set_trustLevel trustLevel app in
      (apiOk (ServiceClient.trustLevel updated), setClient st id updated)
  end.

Definition revokeOAuthGrant (st : Store) (requester grantId : string) (now : Date)
  : Outcome unit * Store :=
  match serviceGrants st !! grantId with
  | None => (apiErr NOT_FOUND (grantNotFoundMessage grantId), st)
  | Some grant =>
      if negb (String.eqb (ServiceGrant.userId grant) requester)
      then (apiErr NO_PERMISSION grantNoPermissionMessage, st)
      else (apiOk tt, setGrant st grantId (ServiceGrant.set_revokedAt (Some now) grant))
  end.
(** The mutating operations of the router, for reasoning about what a
    later call can observe. *)
Inductive Op :=
| OpRotateAppSecret (requester id newSecret : string)
| OpUpdateApp (requester : string) (input : UpdateAppInput.t)
| OpRevokeApp (requester id : string) (now : Date)
| OpCreateApp (requester : string) (input : CreateAppInput.t)
    (newId newClientId newSecret : string) (now : Date)
| OpUpdateAppTrustLevel (id : string) (trustLevel : OAuthTrustLevel)
| OpRevokeOAuthGrant (requester grantId : string) (now : Date).

Definition step (st : Store) (op : Op) : Store :=
  match op with
  | OpRotateAppSecret r id s => snd (rotateAppSecret st r id s)
  | OpUpdateApp r input => snd (updateApp st r input)
  | OpRevokeApp r id now => snd (revokeApp st r id now)
  | OpCreateApp r input i ci s now => snd (createApp st r input i ci s now)
  | OpUpdateAppTrustLevel id l => snd (updateAppTrustLevel st id l)
  | OpRevokeOAuthGrant r g now => snd (revokeOAuthGrant st r g now)
  end.

Definition exec (st : Store) (ops : list Op) : Store := fold_left step ops st.
End Router.

(* ------------------------------------------------------------------ *)
(** ** Concrete fixtures *)

Fixpoint take_host (s : string) : string :=
  match s with
  | EmptyString => EmptyString
  | String c rest =>
      if Ascii.eqb c (Ascii.ascii_of_nat 47) || Ascii.eqb c (Ascii.ascii_of_nat 58)
         || Ascii.eqb c (Ascii.ascii_of_nat 63) || Ascii.eqb c (Ascii.ascii_of_nat 35)
      then EmptyString else String c (take_host rest)
  end.

(** A hostname function for absolute http(s) URLs without user info:
    the text between the scheme and the first '/', ':', '?' or '#'. *)
Definition simpleHostname (u : string) : string :=
  if String.prefix "https://" u then take_host (substring 8 (String.length u) u)
  else if String.prefix "http://" u then take_host (substring 7 (String.length u) u)
  else "".

Definition alice : User.t := User.mk "user-1" "alice" "Alice".
Definition bob : User.t := User.mk "user-2" "bob" "Bob".

Definition exampleApp : ServiceClient.t :=
  ServiceClient.mk "app-1" "Example" "An example app" "https://app.example.com" ""
    ["https://app.example.com/cb"] ["timelapse:read"] UNTRUSTED "svc_example"
    "hash-of-secret" "user-1" 100 None.

Definition exampleGrant : ServiceGrant.t :=
  ServiceGrant.mk "grant-1" "user-2" "app-1" ["timelapse:read"] 200 None None.

Definition exampleStore : Store :=
  mkStore (<["user-1" := alice]> (<["user-2" := bob]> ∅))
    {[ "app-1" := exampleApp ]} {[ "grant-1" := exampleGrant ]}.

(* ------------------------------------------------------------------ *)
(** ** Generic lemmas *)

Lemma includes_In (xs : list string) (x : string) :
  includes xs x = true <-> In x xs.
Proof.
  unfold includes. rewrite existsb_exists. split.
  - intros (y & Hy & Heq). apply String.eqb_eq in Heq. subst. exact Hy.
  - intros H. exists x. split; [exact H | apply String.eqb_refl].
Qed.

Lemma filter_negb_nil_incl (xs ys : list string) :
  List.filter (fun s => negb (includes ys s)) xs = [] <-> incl xs ys.
Proof.
  induction xs as [|x xs IH]; simpl.
  - split; [intros _; apply incl_nil_l | reflexivity].
  - destruct (includes ys x) eqn:E; simpl.
    + rewrite IH. apply includes_In in E. split.
      * intros H. apply incl_cons; assumption.
      * intros H. eapply incl_cons_inv. exact H.
    + split; [discriminate |].
      intros H. exfalso.
      assert (Hin : includes ys x = true) by (apply includes_In, H; left; reflexivity).
      congruence.
Qed.

Lemma length_zero_nil {A} (l : list A) : Nat.ltb 0 (List.length l) = false <-> l = [].
Proof.
  destruct l; simpl; split; intros H; try reflexivity; discriminate.
Qed.

(* ------------------------------------------------------------------ *)
(** ** C1: per-operation scope enforcement *)

Example scope_check_first_party :
  Trpc.allowed (Trpc.protectedProcedure ["user:write"] (Trpc.createContext (Some alice))) = true.
Proof. reflexivity. Qed.

Example scope_check_delegated_missing :
  Trpc.allowed (Trpc.protectedProcedure ["timelapse:write"]
    (Trpc.mkContext (Some alice) ["timelapse:read"] (Some exampleApp))) = false.
Proof. reflexivity. Qed.

(** C1 (counterexample): a delegated context (actor set) whose scope list
    is empty passes a check requiring ["user:read"], although the scope set
    does not cover the required scopes and the actor is not null. *)
Lemma C1_delegated_empty_scopes_pass :
  Trpc.allowed (Trpc.protectedProcedure ["user:read"]
    (Trpc.mkContext (Some alice) [] (Some exampleApp))) = true /\
  ~ (["user:read"] = @nil string
     \/ Trpc.actor (Trpc.mkContext (Some alice) [] (Some exampleApp)) = None
     \/ incl ["user:read"] (Trpc.scopes (Trpc.mkContext (Some alice) [] (Some exampleApp)))).
Proof.
  split; [reflexivity |].
  intros [H | [H | H]]; try discriminate.
  specialize (H "user:read" (or_introl eq_refl)). simpl in H. exact H.
Qed.

(** When the middleware lets a request through. *)
Lemma protectedProcedure_allowed_cases (S : list string) (ctx : Trpc.Context) :
  Trpc.allowed (Trpc.protectedProcedure S ctx) = true <->
  Trpc.user ctx <> None /\
  (S = [] \/ Trpc.scopes ctx = [] \/ incl S (Trpc.scopes ctx)).
Proof.
  destruct ctx as [[u|] sc act]; unfold Trpc.protectedProcedure; simpl.
  - destruct (Nat.ltb 0 (List.length S)) eqn:ES.
    + destruct (Nat.ltb 0 (List.length sc)) eqn:ESc; simpl.
      * destruct (Nat.ltb 0 (List.length (List.filter (fun scope => negb (includes sc scope)) S)))
          eqn:EM; simpl.
        -- split; [discriminate |]. intros [_ [HS | [Hsc | Hincl]]].
           ++ subst S. discriminate.
           ++ subst sc. discriminate.
           ++ apply filter_negb_nil_incl in Hincl. rewrite Hincl in EM. discriminate.
        -- split; [intros _ | reflexivity]. split; [discriminate |].
           right; right. apply filter_negb_nil_incl. apply length_zero_nil. exact EM.
      * split; [intros _ | reflexivity]. split; [discriminate |].
        right; left. apply length_zero_nil. exact ESc.
    + split; [intros _ | reflexivity]. split; [discriminate |].
      left. apply length_zero_nil. exact ES.
  - split; [discriminate | intros [H _]; congruence].
Qed.

(** C1 (amended): the middleware of [protectedProcedure(S)] lets a request
    through iff the context has a user and S is empty, or the context's
    scope list is empty, or S is included in it. The actor is not
    consulted: an empty scope list means full access. A context without a
    user is rejected with UNAUTHORIZED "Authentication required"; a user
    whose non-empty scope list does not cover a non-empty S is rejected
    with FORBIDDEN "Missing required OAuth scope"; otherwise the request
    goes on with the same user, scopes and actor. *)
Theorem protectedProcedure_allowed_iff (S : list string) (ctx : Trpc.Context) :
  (Trpc.allowed (Trpc.protectedProcedure S ctx) = true <->
   Trpc.user ctx <> None /\
   (S = [] \/ Trpc.scopes ctx = [] \/ incl S (Trpc.scopes ctx))) /\
  (Trpc.user ctx = None ->
   Trpc.protectedProcedure S ctx = Trpc.TRPCError Trpc.UNAUTHORIZED "Authentication required") /\
  (forall u, Trpc.user ctx = Some u -> S <> [] -> Trpc.scopes ctx <> [] ->
   ~ incl S (Trpc.scopes ctx) ->
   Trpc.protectedProcedure S ctx = Trpc.TRPCError Trpc.FORBIDDEN "Missing required OAuth scope") /\
  (forall u, Trpc.user ctx = Some u ->
   (S = [] \/ Trpc.scopes ctx = [] \/ incl S (Trpc.scopes ctx)) ->
   Trpc.protectedProcedure S ctx
   = Trpc.Next (Trpc.mkContext (Some u) (Trpc.scopes ctx) (Trpc.actor ctx))).
Proof.
  split; [exact (protectedProcedure_allowed_cases S ctx) |].
  destruct ctx as [ou sc act]; unfold Trpc.protectedProcedure; simpl.
  split; [intros ->; reflexivity |]. split.
  - intros u -> HS Hsc Hincl.
    destruct (Nat.ltb 0 (List.length S)) eqn:ES;
      [| apply length_zero_nil in ES; contradiction].
    destruct (Nat.ltb 0 (List.length sc)) eqn:ESc;
      [| apply length_zero_nil in ESc; contradiction].
    simpl.
    destruct (Nat.ltb 0 (List.length (List.filter (fun scope => negb (includes sc scope)) S)))
      eqn:EM; [reflexivity |].
    apply length_zero_nil, filter_negb_nil_incl in EM. contradiction.
  - intros u -> Hok.
    destruct (Nat.ltb 0 (List.length S)) eqn:ES; [| reflexivity].
    destruct (Nat.ltb 0 (List.length sc)) eqn:ESc; [| reflexivity].
    simpl.
    destruct (Nat.ltb 0 (List.length (List.filter (fun scope => negb (includes sc scope)) S)))
      eqn:EM; [| reflexivity].
    exfalso. destruct Hok as [-> | [-> | Hincl]]; [discriminate | discriminate |].
    apply filter_negb_nil_incl in Hincl. rewrite Hincl in EM. discriminate.
Qed.

(* ------------------------------------------------------------------ *)
(** ** Lookup of the caller's active app *)

(** The row filter of [findFirst({ where: { id, createdByUserId, revokedAt: null } })]
    fails: no row, another owner, or a revoked row. *)
Definition noActiveOwnedClient (st : Store) (id requester : string) : Prop :=
  match serviceClients st !! id with
  | None => True
  | Some c => ServiceClient.createdByUserId c <> requester
              \/ ServiceClient.revokedAt c <> None
  end.

Lemma findActiveOwnedClient_None (st : Store) (id requester : string) :
  findActiveOwnedClient st id requester = None <-> noActiveOwnedClient st id requester.
Proof.
  unfold findActiveOwnedClient, noActiveOwnedClient.
  destruct (serviceClients st !! id) as [c|]; [| tauto].
  destruct (String.eqb (ServiceClient.createdByUserId c) requester) eqn:E;
    destruct (ServiceClient.revokedAt c) as [t|] eqn:R; simpl.
  - split; [intros _; right; discriminate | reflexivity].
  - apply String.eqb_eq in E. split; [discriminate |]. intros [H|H]; contradiction.
  - apply String.eqb_neq in E. split; [intros _; left; exact E | reflexivity].
  - apply String.eqb_neq in E. split; [intros _; left; exact E | reflexivity].
Qed.

Lemma findActiveOwnedClient_Some (st : Store) (id requester : string) (c : ServiceClient.t) :
  findActiveOwnedClient st id requester = Some c ->
  serviceClients st !! id = Some c /\ ServiceClient.createdByUserId c = requester
  /\ ServiceClient.revokedAt c = None.
Proof.
  unfold findActiveOwnedClient.
  destruct (serviceClients st !! id) as [c'|]; [| discriminate].
  destruct (String.eqb (ServiceClient.createdByUserId c') requester) eqn:E;
    destruct (ServiceClient.revokedAt c') as [t|] eqn:R; simpl; try discriminate.
  intros [= <-]. apply String.eqb_eq in E. auto.
Qed.

(* ------------------------------------------------------------------ *)
(** ** C6: NOT_FOUND for absent, revoked or foreign apps *)

Definition renameInput : UpdateAppInput.t :=
  UpdateAppInput.mk "app-1" (Some "Renamed") None None None None None.

(** C6 (counterexample): the app "app-1" exists, is active and is owned by
    "user-1"; an update by "user-2" fails with NOT_FOUND, not NO_PERMISSION. *)
Lemma C6_foreign_update_is_not_found :
  serviceClients exampleStore !! "app-1" = Some exampleApp /\
  ServiceClient.revokedAt exampleApp = None /\
  ServiceClient.createdByUserId exampleApp <> "user-2" /\
  fst (updateApp simpleHostname (fun l => l) exampleStore "user-2" renameInput)
    = apiErr NOT_FOUND (appNotFoundMessage "app-1").
Proof.
  split; [reflexivity |]. split; [reflexivity |]. split; [discriminate | reflexivity].
Qed.

(** C6 (amended): updateApp and rotateAppSecret fail with NOT_FOUND, leaving
    the store unchanged, exactly when no active app with the ID is owned by
    the caller (no row, a revoked row, or a row of another owner); they never
    fail with NO_PERMISSION. *)
Theorem owner_mutations_not_found_iff
    (hostname : string -> string) (normalizeRedirectUris : list string -> list string)
    (hashSecret : string -> string) (st : Store) (requester : string)
    (input : UpdateAppInput.t) (newSecret : string) :
  (fst (updateApp hostname normalizeRedirectUris st requester input)
     = apiErr NOT_FOUND (appNotFoundMessage (UpdateAppInput.id input))
   <-> noActiveOwnedClient st (UpdateAppInput.id input) requester) /\
  (noActiveOwnedClient st (UpdateAppInput.id input) requester ->
   snd (updateApp hostname normalizeRedirectUris st requester input) = st) /\
  (forall m, fst (updateApp hostname normalizeRedirectUris st requester input)
             <> apiErr NO_PERMISSION m) /\
  (fst (rotateAppSecret hashSecret st requester (UpdateAppInput.id input) newSecret)
     = apiErr NOT_FOUND (appNotFoundMessage (UpdateAppInput.id input))
   <-> noActiveOwnedClient st (UpdateAppInput.id input) requester) /\
  (noActiveOwnedClient st (UpdateAppInput.id input) requester ->
   snd (rotateAppSecret hashSecret st requester (UpdateAppInput.id input) newSecret) = st) /\
  (forall m, fst (rotateAppSecret hashSecret st requester (UpdateAppInput.id input) newSecret)
             <> apiErr NO_PERMISSION m).
Proof.
  rewrite <- !findActiveOwnedClient_None.
  unfold updateApp, rotateAppSecret.
  destruct (findActiveOwnedClient st (UpdateAppInput.id input) requester) as [app|] eqn:F.
  - apply findActiveOwnedClient_Some in F as (Hl & _ & _).
    unfold rotateServiceClientSecret. rewrite Hl. simpl.
    set (scopeCheck := match UpdateAppInput.scopes input with
                       | Some scopes => match validateScopes scopes with
                                        | inl msg => inl msg
                                        | inr r => inr (Some r) end
                       | None => inr None end).
    destruct scopeCheck as [msg|ns]; simpl.
    + repeat split; try discriminate; intros H; discriminate.
    + destruct (_ && _); simpl.
      * repeat split; try discriminate; intros H; discriminate.
      * destruct (users _ !! _); simpl;
          repeat split; try discriminate; intros H; discriminate.
  - simpl. repeat split; try reflexivity; discriminate.
Qed.

(* ------------------------------------------------------------------ *)
(** ** C8: revokeApp is a soft delete *)

(** C8: a successful revokeApp found the caller's active row and its only
    write replaces that row by the same row with [revokedAt = now]: the row
    stays in the store, every other field and every other row is unchanged,
    and the grants and users are untouched. *)
Theorem revokeApp_sets_only_revokedAt
    (st st' : Store) (requester id : string) (now : Date) :
  revokeApp st requester id now = (apiOk tt, st') ->
  exists c,
    serviceClients st !! id = Some c /\
    ServiceClient.createdByUserId c = requester /\
    ServiceClient.revokedAt c = None /\
    serviceClients st' = <[id := ServiceClient.set_revokedAt (Some now) c]> (serviceClients st) /\
    serviceClients st' !! id = Some (ServiceClient.set_revokedAt (Some now) c) /\
    (forall id', id' <> id -> serviceClients st' !! id' = serviceClients st !! id') /\
    serviceGrants st' = serviceGrants st /\
    users st' = users st.
Proof.
  unfold revokeApp.
  destruct (findActiveOwnedClient st id requester) as [app|] eqn:F; [| discriminate].
  intros [= <-].
  apply findActiveOwnedClient_Some in F as (Hl & Ho & Hr).
  exists app. simpl. repeat split; try assumption; try reflexivity.
  - apply lookup_insert_eq.
  - intros id' Hne. apply lookup_insert_ne. congruence.
Qed.

Lemma revokeApp_sets_only_revokedAt_witness :
  revokeApp exampleStore "user-1" "app-1" 500
    = (apiOk tt, snd (revokeApp exampleStore "user-1" "app-1" 500)) /\
  exists c,
    serviceClients exampleStore !! "app-1" = Some c /\
    ServiceClient.createdByUserId c = "user-1" /\
    ServiceClient.revokedAt c = None /\
    serviceClients (snd (revokeApp exampleStore "user-1" "app-1" 500))
      = <["app-1" := ServiceClient.set_revokedAt (Some 500) c]> (serviceClients exampleStore) /\
    serviceClients (snd (revokeApp exampleStore "user-1" "app-1" 500)) !! "app-1"
      = Some (ServiceClient.set_revokedAt (Some 500) c) /\
    (forall id', id' <> "app-1" ->
       serviceClients (snd (revokeApp exampleStore "user-1" "app-1" 500)) !! id'
       = serviceClients exampleStore !! id') /\
    serviceGrants (snd (revokeApp exampleStore "user-1" "app-1" 500)) = serviceGrants exampleStore /\
    users (snd (revokeApp exampleStore "user-1" "app-1" 500)) = users exampleStore.
Proof.
  split; [reflexivity |].
  apply revokeApp_sets_only_revokedAt. reflexivity.
Defined.

(* ------------------------------------------------------------------ *)
(** ** C9: revokeOAuthGrant *)

(** C9: an absent grant gives NOT_FOUND; a grant of another user gives
    NO_PERMISSION and leaves the store unchanged; otherwise the grant's
    [revokedAt] is set to the current time. *)
Theorem revokeOAuthGrant_outcomes (st : Store) (requester grantId : string) (now : Date) :
  (serviceGrants st !! grantId = None ->
   revokeOAuthGrant st requester grantId now
     = (apiErr NOT_FOUND (grantNotFoundMessage grantId), st)) /\
  (forall g, serviceGrants st !! grantId = Some g ->
   ServiceGrant.userId g <> requester ->
   revokeOAuthGrant st requester grantId now = (apiErr NO_PERMISSION grantNoPermissionMessage, st)) /\
  (forall g, serviceGrants st !! grantId = Some g ->
   ServiceGrant.userId g = requester ->
   fst (revokeOAuthGrant st requester grantId now) = apiOk tt /\
   serviceGrants (snd (revokeOAuthGrant st requester grantId now)) !! grantId
     = Some (ServiceGrant.set_revokedAt (Some now) g) /\
   ServiceGrant.revokedAt (ServiceGrant.set_revokedAt (Some now) g) = Some now).
Proof.
  unfold revokeOAuthGrant. split; [| split].
  - intros H. rewrite H. reflexivity.
  - intros g H Hne. rewrite H. apply String.eqb_neq in Hne. rewrite Hne. reflexivity.
  - intros g H Heq. rewrite H. apply String.eqb_eq in Heq. rewrite Heq.
    simpl. split; [reflexivity | split; [apply lookup_insert_eq | reflexivity]].
Qed.

(* ------------------------------------------------------------------ *)
(** ** C10: updateAppTrustLevel ignores revocation *)

(** C10: updateAppTrustLevel fails with NOT_FOUND only when no row has the
    ID; for every existing row, revoked or not, it succeeds and writes the
    new trust level. *)
Theorem updateAppTrustLevel_ignores_revocation
    (st : Store) (id : string) (trustLevel : OAuthTrustLevel) :
  (serviceClients st !! id = None ->
   updateAppTrustLevel st id trustLevel = (apiErr NOT_FOUND (appNotFoundMessage id), st)) /\
  (forall c, serviceClients st !! id = Some c ->
   updateAppTrustLevel st id trustLevel
     = (apiOk trustLevel, setClient st id (ServiceClient.set_trustLevel trustLevel c)) /\
   ServiceClient.revokedAt (ServiceClient.set_trustLevel trustLevel c) = ServiceClient.revokedAt c) /\
  (forall m, fst (updateAppTrustLevel st id trustLevel) = apiErr NOT_FOUND m ->
   serviceClients st !! id = None).
Proof.
  unfold updateAppTrustLevel. split; [| split].
  - intros H. rewrite H. reflexivity.
  - intros c H. rewrite H. split; reflexivity.
  - intros m. destruct (serviceClients st !! id); [discriminate | reflexivity].
Qed.

Example updateAppTrustLevel_on_revoked :
  fst (updateAppTrustLevel
         (snd (revokeApp exampleStore "user-1" "app-1" 500)) "app-1" TRUSTED)
  = apiOk TRUSTED.
Proof. reflexivity. Qed.

(* ------------------------------------------------------------------ *)
(** ** C4: unknown scopes are all reported and nothing is written *)

Example normalizeScopes_example :
  normalizeScopes [" user:read"; "user:read"; "foo"; "foo "; "bar"]
  = ["user:read"; "foo"; "bar"].
Proof. reflexivity. Qed.

Definition badScopesInput : CreateAppInput.t :=
  CreateAppInput.mk "Example" "" "https://app.example.com" ""
    ["https://app.example.com/cb"] ["user:read"; " foo"; "bar"; "foo"].

Example createApp_unknown_scopes_example :
  createApp simpleHostname (fun l => l) (fun s => s) exampleStore "user-1"
    badScopesInput "app-2" "svc_2" "secret" 300
  = (apiErr ERROR "Unknown scopes: foo, bar", exampleStore).
Proof. reflexivity. Qed.

(** Every client row's scope list is drawn from the catalog. *)
Definition scopesInCatalog (st : Store) : Prop :=
  map_Forall (fun _ c => incl (ServiceClient.scopes c) getAllOAuthScopes)
    (serviceClients st).

Lemma invalidScopesOf_spec (xs : list string) (s : string) :
  In s (invalidScopesOf xs) <-> In s xs /\ ~ In s getAllOAuthScopes.
Proof.
  unfold invalidScopesOf. rewrite filter_In, <- (includes_In getAllOAuthScopes s).
  destruct (includes getAllOAuthScopes s); simpl;
    split; intros [H1 H2]; split; try exact H1.
  - discriminate.
  - exfalso. apply H2. reflexivity.
  - discriminate.
  - reflexivity.
Qed.

Lemma validateScopes_inl (xs : list string) (msg : string) :
  validateScopes xs = inl msg ->
  invalidScopesOf (normalizeScopes xs) <> [] /\
  msg = unknownScopesMessage (invalidScopesOf (normalizeScopes xs)).
Proof.
  unfold validateScopes.
  destruct (Nat.ltb 0 (List.length (invalidScopesOf (normalizeScopes xs)))) eqn:E;
    [| discriminate].
  intros [= <-]. split; [| reflexivity].
  intros H. rewrite H in E. discriminate.
Qed.

Lemma validateScopes_inr (xs r : list string) :
  validateScopes xs = inr r ->
  r = normalizeScopes xs /\ incl r getAllOAuthScopes.
Proof.
  unfold validateScopes.
  destruct (Nat.ltb 0 (List.length (invalidScopesOf (normalizeScopes xs)))) eqn:E;
    [discriminate |].
  intros [= <-]. split; [reflexivity |].
  apply filter_negb_nil_incl. apply length_zero_nil. exact E.
Qed.

Lemma validateScopes_unknown (xs : list string) :
  invalidScopesOf (normalizeScopes xs) <> [] ->
  validateScopes xs = inl (unknownScopesMessage (invalidScopesOf (normalizeScopes xs))).
Proof.
  unfold validateScopes. intros H.
  destruct (invalidScopesOf (normalizeScopes xs)) eqn:E; [contradiction | reflexivity].
Qed.

(** C4: when the normalised scope list of createApp or updateApp has an
    entry outside the catalog, the call fails with the message naming every
    such entry (the message is built from the list of all unknown entries),
    and the store is left unchanged. For updateApp this holds once the
    caller's app is found (otherwise NOT_FOUND, also without a write).
    Consequently every successful create or update keeps every client's
    scopes inside the catalog. *)
Theorem unknown_scopes_rejected_without_write
    (hostname : string -> string) (normalizeRedirectUris : list string -> list string)
    (hashSecret : string -> string) (st : Store) (requester : string) :
  (forall (xs : list string) (s : string),
     In s (invalidScopesOf (normalizeScopes xs))
     <-> In s (normalizeScopes xs) /\ ~ In s getAllOAuthScopes) /\
  (forall (input : CreateAppInput.t) newId newClientId newSecret now,
     invalidScopesOf (normalizeScopes (CreateAppInput.scopes input)) <> [] ->
     createApp hostname normalizeRedirectUris hashSecret st requester input
       newId newClientId newSecret now
     = (apiErr ERROR (unknownScopesMessage
          (invalidScopesOf (normalizeScopes (CreateAppInput.scopes input)))), st)) /\
  (forall (input : UpdateAppInput.t) (scopes : list string),
     UpdateAppInput.scopes input = Some scopes ->
     invalidScopesOf (normalizeScopes scopes) <> [] ->
     snd (updateApp hostname normalizeRedirectUris st requester input) = st /\
     (findActiveOwnedClient st (UpdateAppInput.id input) requester <> None ->
      fst (updateApp hostname normalizeRedirectUris st requester input)
      = apiErr ERROR (unknownScopesMessage (invalidScopesOf (normalizeScopes scopes))))) /\
  (scopesInCatalog st ->
   forall (input : CreateAppInput.t) newId newClientId newSecret now,
     scopesInCatalog (snd (createApp hostname normalizeRedirectUris hashSecret st
                             requester input newId newClientId newSecret now))) /\
  (scopesInCatalog st ->
   forall (input : UpdateAppInput.t),
     scopesInCatalog (snd (updateApp hostname normalizeRedirectUris st requester input))).
Proof.
  split; [intros; apply invalidScopesOf_spec |].
  split; [| split; [| split]].
  - intros input newId newClientId newSecret now H.
    unfold createApp. rewrite (validateScopes_unknown _ H). reflexivity.
  - intros input scopes Hs H. unfold updateApp.
    rewrite Hs, (validateScopes_unknown _ H).
    destruct (findActiveOwnedClient st (UpdateAppInput.id input) requester);
      simpl; split; try reflexivity. intros []; reflexivity.
  - intros Hinv input newId newClientId newSecret now. unfold createApp.
    destruct (validateScopes (CreateAppInput.scopes input)) as [msg|r] eqn:V;
      [exact Hinv |].
    apply validateScopes_inr in V as [_ Hr].
    destruct (Nat.ltb 0 _); [exact Hinv |].
    unfold createServiceClient.
    destruct (serviceClients st !! newId); [exact Hinv |].
    destruct (users st !! requester); [| exact Hinv].
    simpl. apply map_Forall_insert_2; [exact Hr | exact Hinv].
  - intros Hinv input. unfold updateApp.
    destruct (findActiveOwnedClient st (UpdateAppInput.id input) requester) as [app|] eqn:F;
      [| exact Hinv].
    apply findActiveOwnedClient_Some in F as (Hl & _ & _).
    assert (Happ : incl (ServiceClient.scopes app) getAllOAuthScopes)
      by exact (Hinv _ _ Hl).
    destruct (UpdateAppInput.scopes input) as [scopes|] eqn:Es.
    + destruct (validateScopes scopes) as [msg|r] eqn:V; [exact Hinv |].
      apply validateScopes_inr in V as [_ Hr].
      destruct (_ && _); [exact Hinv |].
      destruct (users _ !! _); simpl;
        (apply map_Forall_insert_2; [exact Hr | exact Hinv]).
    + destruct (_ && _); [exact Hinv |].
      destruct (users _ !! _); simpl;
        (apply map_Forall_insert_2; [exact Happ | exact Hinv]).
Qed.

(* ------------------------------------------------------------------ *)
(** ** Redirect URIs and the homepage host *)

Lemma mismatchedRedirects_nil (hostname : string -> string) (home : string) (l : list string) :
  mismatchedRedirects hostname home l = [] <->
  (forall u, In u l -> hostname u = hostname home).
Proof.
  unfold mismatchedRedirects. induction l as [|x l IH]; simpl.
  - split; [intros _ u [] | reflexivity].
  - destruct (String.eqb (hostname x) (hostname home)) eqn:E; simpl.
    + rewrite IH. apply String.eqb_eq in E. split.
      * intros H u [<- | Hu]; [exact E | apply H, Hu].
      * intros H u Hu. apply H. right. exact Hu.
    + split; [discriminate |]. intros H.
      apply String.eqb_neq in E. exfalso. apply E, H. left. reflexivity.
Qed.

Lemma mismatchedRedirects_cons_nil (hostname : string -> string) (home : string) (l : list string) :
  mismatchedRedirects hostname home l <> [] ->
  Nat.ltb 0 (List.length (mismatchedRedirects hostname home l)) = true.
Proof. destruct (mismatchedRedirects hostname home l); [contradiction | reflexivity]. Qed.

Definition evilInput : CreateAppInput.t :=
  CreateAppInput.mk "Example" "" "https://app.example.com" ""
    ["https://app.example.com/cb"; "https://evil.com/cb"] ["timelapse:read"].

(** C7 (counterexample): createApp with the redirect URI
    "https://evil.com/cb" under the homepage "https://app.example.com" is
    rejected with the fixed message, which does not contain that URI. *)
Lemma C7_mismatch_error_omits_uris :
  mismatchedRedirects simpleHostname "https://app.example.com"
    (CreateAppInput.redirectUris evilInput) = ["https://evil.com/cb"] /\
  createApp simpleHostname (fun l => l) (fun s => s) exampleStore "user-1"
    evilInput "app-2" "svc_2" "secret" 300
  = (apiErr ERROR "Redirect URIs must match the homepage domain.", exampleStore) /\
  String.index 0 "https://evil.com/cb" "Redirect URIs must match the homepage domain." = None.
Proof. split; [reflexivity | split; reflexivity]. Qed.

(** The scope part of updateApp's input is accepted. *)
Definition scopesAccepted (o : option (list string)) : Prop :=
  match o with
  | Some scopes => invalidScopesOf (normalizeScopes scopes) = []
  | None => True
  end.

Lemma scopesAccepted_validate (scopes : list string) :
  invalidScopesOf (normalizeScopes scopes) = [] ->
  validateScopes scopes = inr (normalizeScopes scopes).
Proof. unfold validateScopes. intros ->. reflexivity. Qed.

(** C7 (amended): when createApp or updateApp reaches the redirect check and
    some redirect URI's host differs from the homepage host, the call fails
    with the generic ERROR kind and the fixed message
    "Redirect URIs must match the homepage domain.", whatever the offending
    URIs are, and nothing is written. *)
Theorem redirect_mismatch_error_is_fixed
    (hostname : string -> string) (normalizeRedirectUris : list string -> list string)
    (hashSecret : string -> string) (st : Store) (requester : string) :
  (forall (input : CreateAppInput.t) newId newClientId newSecret now,
     invalidScopesOf (normalizeScopes (CreateAppInput.scopes input)) = [] ->
     mismatchedRedirects hostname (CreateAppInput.homepageUrl input)
       (normalizeRedirectUris (CreateAppInput.redirectUris input)) <> [] ->
     createApp hostname normalizeRedirectUris hashSecret st requester input
       newId newClientId newSecret now
     = (apiErr ERROR redirectMismatchMessage, st)) /\
  (forall (input : UpdateAppInput.t) (app : ServiceClient.t),
     findActiveOwnedClient st (UpdateAppInput.id input) requester = Some app ->
     scopesAccepted (UpdateAppInput.scopes input) ->
     truthy_string (UpdateAppInput.homepageUrl input)
       || truthy_list (UpdateAppInput.redirectUris input) = true ->
     mismatchedRedirects hostname
       (nullish (UpdateAppInput.homepageUrl input) (ServiceClient.homepageUrl app))
       (nullish (UpdateAppInput.redirectUris input) (ServiceClient.redirectUris app)) <> [] ->
     updateApp hostname normalizeRedirectUris st requester input
     = (apiErr ERROR redirectMismatchMessage, st)).
Proof.
  split.
  - intros input newId newClientId newSecret now Hs Hm. unfold createApp.
    rewrite (scopesAccepted_validate _ Hs), (mismatchedRedirects_cons_nil _ _ _ Hm).
    reflexivity.
  - intros input app F Hs Ht Hm. unfold updateApp. rewrite F.
    destruct (UpdateAppInput.scopes input) as [scopes|]; simpl in Hs;
      [rewrite (scopesAccepted_validate _ Hs) |];
      rewrite Ht, (mismatchedRedirects_cons_nil _ _ _ Hm); reflexivity.
Qed.

(* ------------------------------------------------------------------ *)
(** ** C3: every redirect URI lives on the homepage host *)

Definition redirectsOnHomepageHost (hostname : string -> string) (c : ServiceClient.t) : Prop :=
  forall u, In u (ServiceClient.redirectUris c) ->
            hostname u = hostname (ServiceClient.homepageUrl c).

Definition redirectHostsMatch (hostname : string -> string) (st : Store) : Prop :=
  map_Forall (fun _ c => redirectsOnHomepageHost hostname c) (serviceClients st).

Lemma createApp_store
    (hostname : string -> string) (normalizeRedirectUris : list string -> list string)
    (hashSecret : string -> string) (st : Store) (requester : string)
    (input : CreateAppInput.t) newId newClientId newSecret now :
  snd (createApp hostname normalizeRedirectUris hashSecret st requester input
         newId newClientId newSecret now) = st \/
  (mismatchedRedirects hostname (CreateAppInput.homepageUrl input)
     (normalizeRedirectUris (CreateAppInput.redirectUris input)) = [] /\
   exists r u,
     snd (createApp hostname normalizeRedirectUris hashSecret st requester input
            newId newClientId newSecret now)
     = setClient st newId
         (ServiceClient.mk newId (CreateAppInput.name input) (CreateAppInput.description input)
            (CreateAppInput.homepageUrl input) (CreateAppInput.iconUrl input)
            (normalizeRedirectUris (CreateAppInput.redirectUris input)) r UNTRUSTED
            newClientId (hashSecret newSecret) requester now None) /\
     users st !! requester = Some u).
Proof.
  unfold createApp.
  destruct (validateScopes (CreateAppInput.scopes input)) as [msg|r]; [left; reflexivity |].
  destruct (Nat.ltb 0 (List.length (mismatchedRedirects hostname (CreateAppInput.homepageUrl input)
              (normalizeRedirectUris (CreateAppInput.redirectUris input))))) eqn:E;
    [left; reflexivity |].
  unfold createServiceClient.
  destruct (serviceClients st !! newId); [left; reflexivity |].
  destruct (users st !! requester) as [u|] eqn:U; [| left; reflexivity].
  right. split; [apply length_zero_nil, E |]. exists r, u. split; reflexivity.
Qed.

(** C3: with [normalizeRedirectUris] only producing URIs on hosts of its
    input (it trims and deduplicates), the invariant "every redirect URI's
    host is the homepage host" holds for every stored client after createApp
    and after updateApp (for an input accepted by the schema, where a given
    homepageUrl is a URL, hence non-empty). createApp rejects, without a
    write, an input whose normalised redirect URIs break it; updateApp, when
    homepageUrl or redirectUris is supplied, checks the merged state (each
    field taken from the input when given, otherwise from the stored row)
    and rejects, without a write, an update that breaks it. *)
Theorem redirect_host_invariant
    (hostname : string -> string) (normalizeRedirectUris : list string -> list string)
    (hashSecret : string -> string)
    (Hnorm : forall l u, In u (normalizeRedirectUris l) ->
             exists v, In v l /\ hostname v = hostname u)
    (st : Store) (requester : string) :
  (redirectHostsMatch hostname st ->
   forall (input : CreateAppInput.t) newId newClientId newSecret now,
     redirectHostsMatch hostname
       (snd (createApp hostname normalizeRedirectUris hashSecret st requester input
               newId newClientId newSecret now))) /\
  (redirectHostsMatch hostname st ->
   forall (input : UpdateAppInput.t),
     UpdateAppInput.homepageUrl input <> Some "" ->
     redirectHostsMatch hostname
       (snd (updateApp hostname normalizeRedirectUris st requester input))) /\
  (forall (input : CreateAppInput.t) newId newClientId newSecret now,
     mismatchedRedirects hostname (CreateAppInput.homepageUrl input)
       (normalizeRedirectUris (CreateAppInput.redirectUris input)) <> [] ->
     exists k m,
       createApp hostname normalizeRedirectUris hashSecret st requester input
         newId newClientId newSecret now = (apiErr k m, st)) /\
  (forall (input : UpdateAppInput.t) (app : ServiceClient.t),
     findActiveOwnedClient st (UpdateAppInput.id input) requester = Some app ->
     (UpdateAppInput.homepageUrl input <> None \/ UpdateAppInput.redirectUris input <> None) ->
     UpdateAppInput.homepageUrl input <> Some "" ->
     mismatchedRedirects hostname
       (nullish (UpdateAppInput.homepageUrl input) (ServiceClient.homepageUrl app))
       (nullish (UpdateAppInput.redirectUris input) (ServiceClient.redirectUris app)) <> [] ->
     exists k m,
       updateApp hostname normalizeRedirectUris st requester input = (apiErr k m, st)).
Proof.
  split; [| split; [| split]].
  - (* createApp keeps the invariant *)
    intros Hinv input newId newClientId newSecret now.
    destruct (createApp_store hostname normalizeRedirectUris hashSecret st requester input
                newId newClientId newSecret now) as [-> | [Hm (r & u & -> & _)]];
      [exact Hinv |].
    apply map_Forall_insert_2; [| exact Hinv].
    intros x Hx. simpl in *. apply (proj1 (mismatchedRedirects_nil _ _ _) Hm). exact Hx.
  - (* updateApp keeps the invariant *)
    intros Hinv input Hhome. unfold updateApp.
    destruct (findActiveOwnedClient st (UpdateAppInput.id input) requester) as [app|] eqn:F;
      [| exact Hinv].
    apply findActiveOwnedClient_Some in F as (Hl & _ & _).
    pose proof (Hinv _ _ Hl) as Happ. unfold redirectsOnHomepageHost in Happ.
    destruct (match UpdateAppInput.scopes input with
              | Some scopes => match validateScopes scopes with
                               | inl msg => inl msg
                               | inr r => inr (Some r) end
              | None => inr None end) as [msg|ns]; [exact Hinv |].
    destruct ((truthy_string (UpdateAppInput.homepageUrl input)
               || truthy_list (UpdateAppInput.redirectUris input))
              && Nat.ltb 0 (List.length (mismatchedRedirects hostname
                   (nullish (UpdateAppInput.homepageUrl input) (ServiceClient.homepageUrl app))
                   (nullish (UpdateAppInput.redirectUris input) (ServiceClient.redirectUris app)))))
      eqn:Chk; [exact Hinv |].
    assert (Hupd : redirectsOnHomepageHost hostname
      (ServiceClient.mk (ServiceClient.id app)
         (nullish (UpdateAppInput.name input) (ServiceClient.name app))
         (nullish (UpdateAppInput.description input) (ServiceClient.description app))
         (nullish (UpdateAppInput.homepageUrl input) (ServiceClient.homepageUrl app))
         (nullish (UpdateAppInput.iconUrl input) (ServiceClient.iconUrl app))
         (nullish (option_map normalizeRedirectUris (UpdateAppInput.redirectUris input))
                  (ServiceClient.redirectUris app))
         (nullish ns (ServiceClient.scopes app))
         (ServiceClient.trustLevel app) (ServiceClient.clientId app)
         (ServiceClient.clientSecretHash app) (ServiceClient.createdByUserId app)
         (ServiceClient.createdAt app) (ServiceClient.revokedAt app))).
    { unfold redirectsOnHomepageHost; simpl.
      destruct (UpdateAppInput.homepageUrl input) as [h|] eqn:Eh;
        destruct (UpdateAppInput.redirectUris input) as [l|] eqn:El;
        cbn [truthy_list truthy_string nullish option_map] in Chk |- *.
      - (* both given: the check ran on (h, l) and passed *)
        apply andb_false_iff in Chk as [Chk | Chk].
        + rewrite orb_true_r in Chk. discriminate.
        + apply length_zero_nil in Chk. rewrite mismatchedRedirects_nil in Chk.
          intros x Hx. destruct (Hnorm _ _ Hx) as (v & Hv & Hvx).
          rewrite <- Hvx. apply Chk, Hv.
      - (* only the homepage is given: non-empty, so the check ran *)
        assert (Ht : negb (String.eqb h "") = true).
        { destruct (String.eqb h "") eqn:E; [| reflexivity].
          apply String.eqb_eq in E. subst h. contradiction. }
        rewrite Ht in Chk. cbn [orb andb] in Chk.
        apply length_zero_nil in Chk. rewrite mismatchedRedirects_nil in Chk. exact Chk.
      - (* only the redirect URIs are given: checked against the stored homepage *)
        rewrite orb_true_r in Chk. cbn [andb] in Chk.
        apply length_zero_nil in Chk. rewrite mismatchedRedirects_nil in Chk.
        intros x Hx. destruct (Hnorm _ _ Hx) as (v & Hv & Hvx).
        rewrite <- Hvx. apply Chk, Hv.
      - (* neither: homepage and redirect URIs are unchanged *)
        exact Happ. }
    destruct (users _ !! _); simpl; (apply map_Forall_insert_2; [exact Hupd | exact Hinv]).
  - (* createApp rejects a violating input *)
    intros input newId newClientId newSecret now Hm. unfold createApp.
    destruct (validateScopes (CreateAppInput.scopes input)) as [msg|r];
      [eexists _, _; reflexivity |].
    rewrite (mismatchedRedirects_cons_nil _ _ _ Hm). eexists _, _; reflexivity.
  - (* updateApp rejects a violating merged state *)
    intros input app F Hgiven Hhome Hm. unfold updateApp. rewrite F.
    assert (Ht : truthy_string (UpdateAppInput.homepageUrl input)
                 || truthy_list (UpdateAppInput.redirectUris input) = true).
    { revert Hgiven Hhome.
      destruct (UpdateAppInput.homepageUrl input) as [h|];
        destruct (UpdateAppInput.redirectUris input) as [l|]; intros Hgiven Hhome; simpl;
        try reflexivity; try (rewrite orb_true_r; reflexivity).
      - destruct (String.eqb h "") eqn:E; [| reflexivity].
        apply String.eqb_eq in E. subst h. contradiction.
      - destruct Hgiven as [H | H]; exfalso; apply H; reflexivity. }
    destruct (match UpdateAppInput.scopes input with
              | Some scopes => match validateScopes scopes with
                               | inl msg => inl msg
                               | inr r => inr (Some r) end
              | None => inr None end) as [msg|ns]; [eexists _, _; reflexivity |].
    rewrite Ht, (mismatchedRedirects_cons_nil _ _ _ Hm). eexists _, _; reflexivity.
Qed.

Lemma redirect_host_invariant_witness :
  (forall l u, In u ((fun l : list string => l) l) ->
     exists v, In v l /\ simpleHostname v = simpleHostname u) /\
  redirectHostsMatch simpleHostname exampleStore /\
  redirectHostsMatch simpleHostname
    (snd (updateApp simpleHostname (fun l => l) exampleStore "user-1" renameInput)).
Proof.
  assert (Hn : forall l u, In u ((fun l : list string => l) l) ->
                 exists v, In v l /\ simpleHostname v = simpleHostname u).
  { intros l u Hu. exists u. split; [exact Hu | reflexivity]. }
  assert (Hex : redirectHostsMatch simpleHostname exampleStore).
  { unfold redirectHostsMatch. simpl. apply map_Forall_singleton.
    intros u [<- | []]. reflexivity. }
  split; [exact Hn | split; [exact Hex |]].
  destruct (redirect_host_invariant simpleHostname (fun l => l) (fun s => s) Hn
              exampleStore "user-1") as (_ & Hupd & _ & _).
  apply Hupd; [exact Hex | discriminate].
Defined.

(* ------------------------------------------------------------------ *)
(** ** C5: app payloads do not depend on the stored secret verifier *)

Section MergeSortMap.
Context {A : Type} (R : relation A) `{!RelDecision R} (f : A -> A).
Hypothesis Hf : forall x y, R (f x) (f y) <-> R x y.

Lemma list_merge_cons (x1 x2 : A) (l1 l2 : list A) :
  list_merge R (x1 :: l1) (x2 :: l2)
  = if decide (R x1 x2) then x1 :: list_merge R l1 (x2 :: l2)
    else x2 :: list_merge R (x1 :: l1) l2.
Proof. reflexivity. Qed.

Lemma list_merge_map (l1 l2 : list A) :
  list_merge R (map f l1) (map f l2) = map f (list_merge R l1 l2).
Proof.
  revert l2. induction l1 as [|x1 l1 IH1]; intros l2; [destruct l2; reflexivity |].
  induction l2 as [|x2 l2 IH2]; [reflexivity |].
  cbn [map]. rewrite !list_merge_cons.
  destruct (decide (R (f x1) (f x2))) as [H1|H1];
    destruct (decide (R x1 x2)) as [H2|H2].
  - change (f x2 :: map f l2) with (map f (x2 :: l2)). rewrite IH1. reflexivity.
  - exfalso. apply H2, Hf, H1.
  - exfalso. apply H1, Hf, H2.
  - change (f x1 :: map f l1) with (map f (x1 :: l1)). rewrite IH2. reflexivity.
Qed.

Lemma merge_list_to_stack_map (st : list (option (list A))) (l : list A) :
  merge_list_to_stack R (map (option_map (map f)) st) (map f l)
  = map (option_map (map f)) (merge_list_to_stack R st l).
Proof.
  revert l. induction st as [|[l'|] st IH]; intros l; simpl; try reflexivity.
  rewrite list_merge_map, IH. reflexivity.
Qed.

Lemma merge_stack_map (st : list (option (list A))) :
  merge_stack R (map (option_map (map f)) st) = map f (merge_stack R st).
Proof.
  induction st as [|[l'|] st IH]; simpl; try reflexivity; [| exact IH].
  rewrite IH, list_merge_map. reflexivity.
Qed.

Lemma merge_sort_aux_map (st : list (option (list A))) (l : list A) :
  merge_sort_aux R (map (option_map (map f)) st) (map f l)
  = map f (merge_sort_aux R st l).
Proof.
  revert st. induction l as [|x l IH]; intros st; simpl.
  - apply merge_stack_map.
  - change [f x] with (map f [x]). rewrite merge_list_to_stack_map. apply IH.
Qed.

Lemma merge_sort_map (l : list A) :
  merge_sort R (map f l) = map f (merge_sort R l).
Proof. apply (merge_sort_aux_map []). Qed.
End MergeSortMap.

(** The stored client without its secret verifier. *)
Definition forgetSecret (c : ServiceClient.t) : ServiceClient.t :=
  ServiceClient.set_clientSecretHash "" c.

Definition forgetSecrets (st : Store) : Store :=
  mkStore (users st) (forgetSecret <$> serviceClients st) (serviceGrants st).

Lemma dto_forgetSecret (c : ServiceClient.t) (u : User.t) :
  dtoOAuthApp (forgetSecret c, u) = dtoOAuthApp (c, u).
Proof. reflexivity. Qed.

Lemma findActiveOwnedClient_forgetSecrets (st : Store) (id requester : string) :
  findActiveOwnedClient (forgetSecrets st) id requester
  = option_map forgetSecret (findActiveOwnedClient st id requester).
Proof.
  unfold findActiveOwnedClient, forgetSecrets. simpl. rewrite lookup_fmap.
  destruct (serviceClients st !! id); simpl; [| reflexivity].
  destruct (_ && _); reflexivity.
Qed.

Lemma snd_fmap_map_to_list (m : gmap string ServiceClient.t) :
  (map_to_list (forgetSecret <$> m)).*2 = map forgetSecret (map_to_list m).*2.
Proof.
  rewrite map_to_list_fmap. induction (map_to_list m) as [|[k v] l IH];
    [reflexivity | cbn; f_equal; exact IH].
Qed.

Lemma filter_map_forgetSecret (p : ServiceClient.t -> bool) (l : list ServiceClient.t) :
  (forall c, p (forgetSecret c) = p c) ->
  List.filter p (map forgetSecret l) = map forgetSecret (List.filter p l).
Proof.
  intros Hp. induction l as [|c l IH]; simpl; [reflexivity |].
  rewrite Hp. destruct (p c); simpl; rewrite IH; reflexivity.
Qed.

Lemma includeCreatedByUser_forgetSecret (st : Store) (l : list ServiceClient.t) :
  map dtoOAuthApp (includeCreatedByUser st (map forgetSecret l))
  = map dtoOAuthApp (includeCreatedByUser st l).
Proof.
  induction l as [|c l IH]; simpl; [reflexivity |].
  destruct (users st !! ServiceClient.createdByUserId c); simpl; rewrite IH; reflexivity.
Qed.

Lemma orderByCreatedAtDesc_forgetSecret (l : list ServiceClient.t) :
  orderByCreatedAtDesc (map forgetSecret l) = map forgetSecret (orderByCreatedAtDesc l).
Proof.
  unfold orderByCreatedAtDesc. apply merge_sort_map.
  intros x y. unfold createdAtDesc. simpl. reflexivity.
Qed.

Lemma updateApp_forgetSecrets
    (hostname : string -> string) (normalizeRedirectUris : list string -> list string)
    (st : Store) (requester : string) (input : UpdateAppInput.t) :
  fst (updateApp hostname normalizeRedirectUris (forgetSecrets st) requester input)
  = fst (updateApp hostname normalizeRedirectUris st requester input).
Proof.
  unfold updateApp. rewrite findActiveOwnedClient_forgetSecrets.
  destruct (findActiveOwnedClient st (UpdateAppInput.id input) requester) as [app|];
    simpl; [| reflexivity].
  destruct (match UpdateAppInput.scopes input with
            | Some scopes => match validateScopes scopes with
                             | inl msg => inl msg
                             | inr r => inr (Some r) end
            | None => inr None end); simpl; [reflexivity |].
  destruct (_ && _); simpl; [reflexivity |].
  destruct (users st !! ServiceClient.createdByUserId app); reflexivity.
Qed.

Lemma getAllOwnedApps_forgetSecrets (st : Store) (requester : string) :
  getAllOwnedApps (forgetSecrets st) requester = getAllOwnedApps st requester.
Proof.
  unfold getAllOwnedApps. simpl. rewrite snd_fmap_map_to_list.
  rewrite filter_map_forgetSecret by reflexivity.
  rewrite orderByCreatedAtDesc_forgetSecret.
  change (users st) with (users (forgetSecrets st)).
  rewrite includeCreatedByUser_forgetSecret. reflexivity.
Qed.

Lemma getAllApps_forgetSecrets (st : Store) :
  getAllApps (forgetSecrets st) = getAllApps st.
Proof.
  unfold getAllApps. simpl. rewrite snd_fmap_map_to_list.
  rewrite filter_map_forgetSecret by reflexivity.
  rewrite orderByCreatedAtDesc_forgetSecret.
  change (users st) with (users (forgetSecrets st)).
  rewrite includeCreatedByUser_forgetSecret. reflexivity.
Qed.

Example getAllOwnedApps_after_rotation :
  getAllOwnedApps (snd (rotateAppSecret (fun s => "h:" ++ s) exampleStore "user-1" "app-1" "new"))
    "user-1"
  = getAllOwnedApps exampleStore "user-1".
Proof. reflexivity. Qed.

(** C5: the app payload built by dtoOAuthApp has no secret and does not
    depend on the stored secret verifier; hence the responses of updateApp,
    getAllOwnedApps and getAllApps are the same on any two stores that
    differ only in the clients' secret verifiers. *)
Theorem app_payloads_independent_of_secret
    (hostname : string -> string) (normalizeRedirectUris : list string -> list string)
    (st1 st2 : Store) :
  (forall (c : ServiceClient.t) (u : User.t) (h : string),
     dtoOAuthApp (ServiceClient.set_clientSecretHash h c, u) = dtoOAuthApp (c, u)) /\
  (forgetSecrets st1 = forgetSecrets st2 ->
   (forall (requester : string) (input : UpdateAppInput.t),
      fst (updateApp hostname normalizeRedirectUris st1 requester input)
      = fst (updateApp hostname normalizeRedirectUris st2 requester input)) /\
   (forall requester : string,
      getAllOwnedApps st1 requester = getAllOwnedApps st2 requester) /\
   getAllApps st1 = getAllApps st2).
Proof.
  split; [intros; reflexivity |].
  intros Heq. split; [| split].
  - intros requester input.
    rewrite <- (updateApp_forgetSecrets _ _ st1), <- (updateApp_forgetSecrets _ _ st2), Heq.
    reflexivity.
  - intros requester.
    rewrite <- (getAllOwnedApps_forgetSecrets st1), <- (getAllOwnedApps_forgetSecrets st2), Heq.
    reflexivity.
  - rewrite <- (getAllApps_forgetSecrets st1), <- (getAllApps_forgetSecrets st2), Heq.
    reflexivity.
Qed.

(* ------------------------------------------------------------------ *)
(** ** C2: revocation is observed by every later verification *)

Lemma in_snd_map_to_list (m : gmap string ServiceGrant.t) (g : ServiceGrant.t) :
  In g (map_to_list m).*2 <-> exists k, m !! k = Some g.
Proof.
  rewrite <- list_elem_of_In, list_elem_of_fmap. split.
  - intros ([k g'] & -> & Hin). apply elem_of_map_to_list in Hin. exists k. exact Hin.
  - intros [k Hk]. exists (k, g). split; [reflexivity |].
    apply elem_of_map_to_list. exact Hk.
Qed.

Lemma grantsFor_spec (st : Store) (tok : Obo.Token) (g : ServiceGrant.t) :
  In g (Obo.grantsFor st tok) <->
  (exists k, serviceGrants st !! k = Some g) /\ Obo.grantMatches tok g = true.
Proof. unfold Obo.grantsFor. rewrite filter_In, in_snd_map_to_list. reflexivity. Qed.

(** The token's client is revoked, or the user's grants for that client
    exist and are all revoked. *)
Definition revokedFor (st : Store) (tok : Obo.Token) : Prop :=
  exists c, serviceClients st !! Obo.actorClientId tok = Some c /\
  (ServiceClient.revokedAt c <> None \/
   ((exists k g, serviceGrants st !! k = Some g /\ Obo.grantMatches tok g = true) /\
    (forall k g, serviceGrants st !! k = Some g -> Obo.grantMatches tok g = true ->
                 ServiceGrant.revokedAt g <> None))).

Lemma verify_revokedFor (st : Store) (now : Date) (tok : Obo.Token) :
  revokedFor st tok -> Obo.signatureValid tok = true -> now < Obo.expiresAt tok ->
  Obo.verify st now tok = inr Obo.Revoked.
Proof.
  intros (c & Hc & Hr) Hsig Hexp. unfold Obo.verify.
  rewrite Hsig. simpl.
  destruct (Nat.leb (Obo.expiresAt tok) now) eqn:E;
    [apply Nat.leb_le in E; lia |].
  rewrite Hc.
  destruct (ServiceClient.revokedAt c) as [t|] eqn:R; [reflexivity |].
  destruct Hr as [Hr | ((k & g & Hk & Hm) & Hall)]; [contradiction |]. simpl.
  destruct (Obo.grantsFor st tok) as [|g0 gs] eqn:Gs.
  - exfalso. assert (Hin : In g (Obo.grantsFor st tok))
      by (apply grantsFor_spec; split; [exists k; exact Hk | exact Hm]).
    rewrite Gs in Hin. exact Hin.
  - simpl.
    assert (Hnone : existsb (fun g => is_null (ServiceGrant.revokedAt g)) (g0 :: gs) = false).
    { apply Bool.not_true_iff_false. intros Hex. apply existsb_exists in Hex as (g' & Hin & Hn).
      rewrite <- Gs in Hin. apply grantsFor_spec in Hin as ([k' Hk'] & Hm').
      apply (Hall _ _ Hk' Hm'). destruct (ServiceGrant.revokedAt g'); [discriminate | reflexivity]. }
    simpl in Hnone. rewrite Hnone. reflexivity.
Qed.

(** A client write that never clears a revocation. *)
Definition clientWrite (st : Store) (k : string) (c' : ServiceClient.t) : Prop :=
  match serviceClients st !! k with
  | None => True
  | Some c => ServiceClient.revokedAt c <> None -> ServiceClient.revokedAt c' <> None
  end.

(** A grant write that keeps the grant's user and client and never clears a
    revocation. *)
Definition grantWrite (st : Store) (k : string) (g' : ServiceGrant.t) : Prop :=
  exists g, serviceGrants st !! k = Some g /\
    ServiceGrant.userId g' = ServiceGrant.userId g /\
    ServiceGrant.serviceClientId g' = ServiceGrant.serviceClientId g /\
    (ServiceGrant.revokedAt g <> None -> ServiceGrant.revokedAt g' <> None).

Lemma step_cases
    (hostname : string -> string) (normalizeRedirectUris : list string -> list string)
    (hashSecret : string -> string) (st : Store) (op : Op) :
  step hostname normalizeRedirectUris hashSecret st op = st \/
  (exists k c', clientWrite st k c' /\
     step hostname normalizeRedirectUris hashSecret st op = setClient st k c') \/
  (exists k g', grantWrite st k g' /\
     step hostname normalizeRedirectUris hashSecret st op = setGrant st k g').
Proof.
  destruct op as [r id s | r input | r id now | r input i ci s now | id l | r gid now];
    simpl.
  - (* rotateAppSecret *)
    unfold rotateAppSecret.
    destruct (findActiveOwnedClient st id r) as [app|]; [| left; reflexivity].
    unfold rotateServiceClientSecret.
    destruct (serviceClients st !! id) as [c|] eqn:Hc; [| left; reflexivity].
    right; left. eexists _, _. split; [| reflexivity].
    unfold clientWrite. rewrite Hc. simpl. exact (fun H => H).
  - (* updateApp *)
    unfold updateApp.
    destruct (findActiveOwnedClient st (UpdateAppInput.id input) r) as [app|] eqn:F;
      [| left; reflexivity].
    apply findActiveOwnedClient_Some in F as (Hl & _ & _).
    destruct (match UpdateAppInput.scopes input with
              | Some scopes => match validateScopes scopes with
                               | inl msg => inl msg
                               | inr r => inr (Some r) end
              | None => inr None end); [left; reflexivity |].
    destruct (_ && _); [left; reflexivity |].
    right; left.
    destruct (users _ !! _); (eexists _, _; split; [| reflexivity]);
      unfold clientWrite; rewrite Hl; simpl; exact (fun H => H).
  - (* revokeApp *)
    unfold revokeApp.
    destruct (findActiveOwnedClient st id r) as [app|]; [| left; reflexivity].
    right; left. eexists _, _. split; [| reflexivity].
    unfold clientWrite. destruct (serviceClients st !! id); [| exact I].
    intros _. simpl. discriminate.
  - (* createApp *)
    unfold createApp.
    destruct (validateScopes (CreateAppInput.scopes input)); [left; reflexivity |].
    destruct (Nat.ltb 0 _); [left; reflexivity |].
    unfold createServiceClient.
    destruct (serviceClients st !! i) as [c|] eqn:Hi; [left; reflexivity |].
    destruct (users st !! r); [| left; reflexivity].
    right; left. eexists _, _. split; [| reflexivity].
    unfold clientWrite. rewrite Hi. exact I.
  - (* updateAppTrustLevel *)
    unfold updateAppTrustLevel.
    destruct (serviceClients st !! id) as [c|] eqn:Hc; [| left; reflexivity].
    right; left. eexists _, _. split; [| reflexivity].
    unfold clientWrite. rewrite Hc. simpl. exact (fun H => H).
  - (* revokeOAuthGrant *)
    unfold revokeOAuthGrant.
    destruct (serviceGrants st !! gid) as [g|] eqn:Hg; [| left; reflexivity].
    destruct (negb _); [left; reflexivity |].
    right; right. eexists _, _. split; [| reflexivity].
    exists g. split; [exact Hg |]. simpl. split; [reflexivity | split; [reflexivity |]].
    intros _. discriminate.
Qed.

Lemma grantMatches_same_ids (tok : Obo.Token) (g g' : ServiceGrant.t) :
  ServiceGrant.userId g' = ServiceGrant.userId g ->
  ServiceGrant.serviceClientId g' = ServiceGrant.serviceClientId g ->
  Obo.grantMatches tok g' = Obo.grantMatches tok g.
Proof. intros Hu Hc. unfold Obo.grantMatches. rewrite Hu, Hc. reflexivity. Qed.

Lemma revokedFor_step
    (hostname : string -> string) (normalizeRedirectUris : list string -> list string)
    (hashSecret : string -> string) (st : Store) (op : Op) (tok : Obo.Token) :
  revokedFor st tok ->
  revokedFor (step hostname normalizeRedirectUris hashSecret st op) tok.
Proof.
  intros (c & Hc & Hr).
  destruct (step_cases hostname normalizeRedirectUris hashSecret st op)
    as [-> | [(k & c' & Hw & ->) | (k & g' & Hw & ->)]].
  - exists c. split; assumption.
  - unfold revokedFor, setClient; simpl.
    destruct (decide (k = Obo.actorClientId tok)) as [Heq | Hne].
    + subst k. exists c'. rewrite lookup_insert_eq. split; [reflexivity |].
      unfold clientWrite in Hw. rewrite Hc in Hw.
      destruct Hr as [Hr | Hr]; [left; apply Hw, Hr | right; exact Hr].
    + exists c. rewrite lookup_insert_ne by exact Hne. split; assumption.
  - destruct Hw as (g & Hg & Hu & Hci & Hrev).
    unfold revokedFor, setGrant; simpl. exists c. split; [exact Hc |].
    destruct Hr as [Hr | ((k0 & g0 & Hk0 & Hm0) & Hall)]; [left; exact Hr | right].
    split.
    + destruct (decide (k = k0)) as [<- | Hne].
      * exists k, g'. rewrite lookup_insert_eq. split; [reflexivity |].
        rewrite Hg in Hk0. injection Hk0 as <-.
        rewrite (grantMatches_same_ids tok g g' Hu Hci). exact Hm0.
      * exists k0, g0. rewrite lookup_insert_ne by exact Hne. split; assumption.
    + intros k1 g1 Hk1 Hm1.
      destruct (decide (k = k1)) as [<- | Hne].
      * rewrite lookup_insert_eq in Hk1. injection Hk1 as <-.
        apply Hrev. apply (Hall k g Hg).
        rewrite <- (grantMatches_same_ids tok g g' Hu Hci). exact Hm1.
      * rewrite lookup_insert_ne in Hk1 by exact Hne. exact (Hall _ _ Hk1 Hm1).
Qed.

Lemma revokedFor_exec
    (hostname : string -> string) (normalizeRedirectUris : list string -> list string)
    (hashSecret : string -> string) (ops : list Op) (st : Store) (tok : Obo.Token) :
  revokedFor st tok ->
  revokedFor (exec hostname normalizeRedirectUris hashSecret st ops) tok.
Proof.
  unfold exec. revert st. induction ops as [|op ops IH]; intros st H; simpl; [exact H |].
  apply IH. apply revokedFor_step. exact H.
Qed.

(** At most one non-revoked grant per (user, client) pair. *)
Definition atMostOneActiveGrant (st : Store) : Prop :=
  forall k1 k2 g1 g2,
    serviceGrants st !! k1 = Some g1 -> serviceGrants st !! k2 = Some g2 ->
    ServiceGrant.revokedAt g1 = None -> ServiceGrant.revokedAt g2 = None ->
    ServiceGrant.userId g1 = ServiceGrant.userId g2 ->
    ServiceGrant.serviceClientId g1 = ServiceGrant.serviceClientId g2 ->
    k1 = k2.

Lemma revokeApp_revokedFor (st st1 : Store) (requester : string) (now : Date) (tok : Obo.Token) :
  revokeApp st requester (Obo.actorClientId tok) now = (apiOk tt, st1) ->
  revokedFor st1 tok.
Proof.
  intros H. apply revokeApp_sets_only_revokedAt in H as (c & _ & _ & _ & _ & Hl & _).
  exists (ServiceClient.set_revokedAt (Some now) c). split; [exact Hl |].
  left. simpl. discriminate.
Qed.

Lemma revokeOAuthGrant_revokedFor
    (st st1 : Store) (requester gid : string) (now : Date) (tok : Obo.Token)
    (g : ServiceGrant.t) :
  serviceGrants st !! gid = Some g -> Obo.grantMatches tok g = true ->
  ServiceGrant.revokedAt g = None -> atMostOneActiveGrant st ->
  is_Some (serviceClients st !! Obo.actorClientId tok) ->
  revokeOAuthGrant st requester gid now = (apiOk tt, st1) ->
  revokedFor st1 tok.
Proof.
  intros Hg Hm Hact Huniq [c Hc] Hrev.
  unfold revokeOAuthGrant in Hrev. rewrite Hg in Hrev.
  destruct (negb _); [discriminate |]. injection Hrev as <-.
  exists c. unfold setGrant; simpl. split; [exact Hc |]. right. split.
  - exists gid, (ServiceGrant.set_revokedAt (Some now) g).
    rewrite lookup_insert_eq. split; [reflexivity |]. exact Hm.
  - intros k g1 Hk Hm1.
    destruct (decide (gid = k)) as [<- | Hne].
    + rewrite lookup_insert_eq in Hk. injection Hk as <-. simpl. discriminate.
    + rewrite lookup_insert_ne in Hk by exact Hne.
      intros Hnone. apply Hne.
      unfold Obo.grantMatches in Hm, Hm1.
      apply andb_true_iff in Hm as [Hu Hcl]. apply andb_true_iff in Hm1 as [Hu1 Hcl1].
      apply String.eqb_eq in Hu, Hcl, Hu1, Hcl1.
      apply (Huniq gid k g g1 Hg Hk Hact Hnone); congruence.
Qed.

(** C2 (spec-modelled verifier): once a successful revokeApp has revoked a
    token's client, or a successful revokeOAuthGrant has revoked the active
    grant the token was minted under (with at most one active grant per user
    and client), every later verification of the token, after any sequence
    of further router operations, fails with Revoked while the token's
    signature is valid and its expiry has not passed. The verifier reads the
    client and grant rows from the store it is given at each call. *)
Theorem verify_fails_after_revocation
    (hostname : string -> string) (normalizeRedirectUris : list string -> list string)
    (hashSecret : string -> string) (st st1 : Store) (tok : Obo.Token)
    (ops : list Op) (now : Date)
    (Hrevoked :
       (exists requester t,
          revokeApp st requester (Obo.actorClientId tok) t = (apiOk tt, st1)) \/
       (exists requester gid g t,
          serviceGrants st !! gid = Some g /\ Obo.grantMatches tok g = true /\
          ServiceGrant.revokedAt g = None /\ atMostOneActiveGrant st /\
          is_Some (serviceClients st !! Obo.actorClientId tok) /\
          revokeOAuthGrant st requester gid t = (apiOk tt, st1)))
    (Hsig : Obo.signatureValid tok = true)
    (Hexp : now < Obo.expiresAt tok) :
  Obo.verify (exec hostname normalizeRedirectUris hashSecret st1 ops) now tok
  = inr Obo.Revoked.
Proof.
  apply verify_revokedFor; [| exact Hsig | exact Hexp].
  apply revokedFor_exec.
  destruct Hrevoked as [(r & t & H) | (r & gid & g & t & Hg & Hm & Ha & Hu & Hc & H)].
  - exact (revokeApp_revokedFor _ _ _ _ _ H).
  - exact (revokeOAuthGrant_revokedFor _ _ _ _ _ _ _ Hg Hm Ha Hu Hc H).
Qed.

Definition exampleToken : Obo.Token :=
  Obo.mk "user-2" "app-1" ["timelapse:read"] 250 1150 true.

Example verify_before_revocation :
  Obo.verify exampleStore 600 exampleToken
  = inl (Trpc.mkContext (Some bob) ["timelapse:read"] (Some exampleApp)).
Proof. reflexivity. Qed.

Lemma verify_fails_after_revocation_witness :
  (exists requester gid g t,
     serviceGrants exampleStore !! gid = Some g /\ Obo.grantMatches exampleToken g = true /\
     ServiceGrant.revokedAt g = None /\ atMostOneActiveGrant exampleStore /\
     is_Some (serviceClients exampleStore !! Obo.actorClientId exampleToken) /\
     revokeOAuthGrant exampleStore requester gid t
     = (apiOk tt, snd (revokeOAuthGrant exampleStore "user-2" "grant-1" 500))) /\
  Obo.verify
    (exec simpleHostname (fun l => l) (fun s => s)
       (snd (revokeOAuthGrant exampleStore "user-2" "grant-1" 500))
       [OpUpdateAppTrustLevel "app-1" TRUSTED; OpUpdateApp "user-1" renameInput])
    600 exampleToken
  = inr Obo.Revoked.
Proof.
  assert (Hev : exists requester gid g t,
     serviceGrants exampleStore !! gid = Some g /\ Obo.grantMatches exampleToken g = true /\
     ServiceGrant.revokedAt g = None /\ atMostOneActiveGrant exampleStore /\
     is_Some (serviceClients exampleStore !! Obo.actorClientId exampleToken) /\
     revokeOAuthGrant exampleStore requester gid t
     = (apiOk tt, snd (revokeOAuthGrant exampleStore "user-2" "grant-1" 500))).
  { exists "user-2", "grant-1", exampleGrant, 500.
    split; [reflexivity |]. split; [reflexivity |]. split; [reflexivity |].
    split; [| split; [eexists; reflexivity | reflexivity]].
    intros k1 k2 g1 g2 H1 H2 _ _ _ _. simpl in H1, H2.
    apply lookup_singleton_Some in H1 as [<- _].
    apply lookup_singleton_Some in H2 as [<- _]. reflexivity. }
  split; [exact Hev |].
  apply (verify_fails_after_revocation simpleHostname (fun l => l) (fun s => s)
           exampleStore); [right; exact Hev | reflexivity | simpl; lia].
Defined.

(* ================================================================== *)
(** * Further properties of the developer router and its callers *)

(* ------------------------------------------------------------------ *)
(** ** [getOwnedOAuthGrants] and [dtoOAuthGrant] *)

Module OAuthGrant.
(** [OAuthGrant]; the dates stand for their [toISOString()]. *)
Record t := mk {
  id : string;
  serviceClientId : string;
  serviceName : string;
  scopes : list string;
  createdAt : Date;
  lastUsedAt : option Date
}.
End OAuthGrant.

(** [DbOAuthGrant = db.ServiceGrant & { serviceClient: db.ServiceClient }] *)
Definition DbOAuthGrant : Type := ServiceGrant.t * ServiceClient.t.

Definition dtoOAuthGrant (entity : DbOAuthGrant) : OAuthGrant.t :=
  let '(g, c) := entity in
  OAuthGrant.mk (ServiceGrant.id g) (ServiceGrant.serviceClientId g)
    (ServiceClient.name c) (ServiceGrant.scopes g) (ServiceGrant.createdAt g)
    (ServiceGrant.lastUsedAt g).

(** [include: { serviceClient: true }] on a list of grant rows. *)
Definition includeServiceClient (st : Store) (gs : list ServiceGrant.t)
  : list DbOAuthGrant :=
  omap (fun g => (fun c => (g, c)) <$> serviceClients st !! ServiceGrant.serviceClientId g) gs.

Definition grantCreatedAtDesc (a b : ServiceGrant.t) : Prop :=
  (ServiceGrant.createdAt b <= ServiceGrant.createdAt a)%nat.

#[global] Instance grantCreatedAtDesc_dec : RelDecision grantCreatedAtDesc :=
  fun a b => decide (ServiceGrant.createdAt b <= ServiceGrant.createdAt a)%nat.

Definition getOwnedOAuthGrants (st : Store) (requester : string)
  : Outcome (list OAuthGrant.t) :=
  let grants :=
    List.filter (fun g => String.eqb (ServiceGrant.userId g) requester
                     && is_null (ServiceGrant.revokedAt g))
      (map_to_list (serviceGrants st)).*2 in
  apiOk (map dtoOAuthGrant (includeServiceClient st
           (merge_sort grantCreatedAtDesc grants))).

(** Newest first, as the listings return them. *)
Definition appNewerOrSame (a b : OAuthApp.t) : Prop :=
  (OAuthApp.createdAt b <= OAuthApp.createdAt a)%nat.

Definition grantNewerOrSame (a b : OAuthGrant.t) : Prop :=
  (OAuthGrant.createdAt b <= OAuthGrant.createdAt a)%nat.

(** Every row of a table has its key as its [id]. *)
Definition clientKeysAreIds (st : Store) : Prop :=
  forall k c, serviceClients st !! k = Some c -> ServiceClient.id c = k.

Definition grantKeysAreIds (st : Store) : Prop :=
  forall k g, serviceGrants st !! k = Some g -> ServiceGrant.id g = k.

(* ------------------------------------------------------------------ *)
(** ** Generic list lemmas for the listings *)

#[global] Instance createdAtDesc_trans : Transitive createdAtDesc.
Proof. intros a b c. unfold createdAtDesc. lia. Qed.

#[global] Instance createdAtDesc_total : Total createdAtDesc.
Proof. intros a b. unfold createdAtDesc. lia. Qed.

#[global] Instance grantCreatedAtDesc_trans : Transitive grantCreatedAtDesc.
Proof. intros a b c. unfold grantCreatedAtDesc. lia. Qed.

#[global] Instance grantCreatedAtDesc_total : Total grantCreatedAtDesc.
Proof. intros a b. unfold grantCreatedAtDesc. lia. Qed.

Lemma in_snd_map_to_list_any {V} (m : gmap string V) (v : V) :
  In v (map_to_list m).*2 <-> exists k, m !! k = Some v.
Proof.
  rewrite <- list_elem_of_In, list_elem_of_fmap. split.
  - intros ([k v'] & -> & Hin). apply elem_of_map_to_list in Hin. exists k. exact Hin.
  - intros [k Hk]. exists (k, v). split; [reflexivity |].
    apply elem_of_map_to_list. exact Hk.
Qed.

Lemma In_map_omap {A B C} (k : A -> option B) (h : B -> C) (l : list A) (x : C) :
  In x (map h (omap k l)) <-> exists a b, In a l /\ k a = Some b /\ x = h b.
Proof.
  induction l as [|a l IH]; simpl.
  - split; [intros [] | intros (? & ? & [] & _)].
  - destruct (k a) as [b|] eqn:Hk; simpl.
    + rewrite IH. split.
      * intros [<- | (a' & b' & Hin & Hk' & ->)];
          [exists a, b; auto | exists a', b'; auto].
      * intros (a' & b' & [<- | Hin] & Hk' & ->); [left; congruence | right; eauto].
    + rewrite IH. split.
      * intros (a' & b' & Hin & Hk' & ->). exists a', b'. auto.
      * intros (a' & b' & [<- | Hin] & Hk' & ->); [congruence | eauto].
Qed.

Lemma StronglySorted_map_omap {A B C} (R : relation A) (R' : relation C)
    (k : A -> option B) (h : B -> C) (l : list A) :
  (forall a1 a2 b1 b2, R a1 a2 -> k a1 = Some b1 -> k a2 = Some b2 -> R' (h b1) (h b2)) ->
  StronglySorted R l -> StronglySorted R' (map h (omap k l)).
Proof.
  intros HR Hs. induction Hs as [|a l Hs IH Hall]; simpl; [constructor |].
  destruct (k a) as [b|] eqn:Hk; simpl; [| exact IH].
  constructor; [exact IH |]. apply Forall_forall. intros x Hx.
  apply list_elem_of_In, In_map_omap in Hx as (a' & b' & Hin & Hk' & ->).
  rewrite Forall_forall in Hall. apply list_elem_of_In in Hin.
  exact (HR _ _ _ _ (Hall _ Hin) Hk Hk').
Qed.

Lemma In_merge_sort {A} (R : relation A) `{!RelDecision R} (l : list A) (x : A) :
  In x (merge_sort R l) <-> In x l.
Proof.
  rewrite <- !list_elem_of_In. apply elem_of_Permutation_proper.
  apply merge_sort_Permutation.
Qed.

(* ------------------------------------------------------------------ *)
(** ** The app and grant listings *)

Lemma includeCreatedByUser_sorted (st : Store) (l : list ServiceClient.t) :
  StronglySorted createdAtDesc l ->
  StronglySorted appNewerOrSame (map dtoOAuthApp (includeCreatedByUser st l)).
Proof.
  apply StronglySorted_map_omap. intros a1 a2 [c1 u1] [c2 u2] HR H1 H2.
  destruct (users st !! ServiceClient.createdByUserId a1); [| discriminate].
  destruct (users st !! ServiceClient.createdByUserId a2); [| discriminate].
  simpl in H1, H2. injection H1 as <- <-. injection H2 as <- <-. exact HR.
Qed.

Lemma In_includeCreatedByUser (st : Store) (l : list ServiceClient.t) (a : OAuthApp.t) :
  In a (map dtoOAuthApp (includeCreatedByUser st l)) <->
  exists c u, In c l /\ users st !! ServiceClient.createdByUserId c = Some u
              /\ a = dtoOAuthApp (c, u).
Proof.
  unfold includeCreatedByUser. rewrite In_map_omap. split.
  - intros (c & [c' u] & Hin & Hk & ->).
    destruct (users st !! ServiceClient.createdByUserId c) as [u'|] eqn:Hu; [| discriminate].
    simpl in Hk. injection Hk as <- <-. exists c, u'. auto.
  - intros (c & u & Hin & Hu & ->). exists c, (c, u). rewrite Hu. auto.
Qed.

Lemma includeServiceClient_sorted (st : Store) (l : list ServiceGrant.t) :
  StronglySorted grantCreatedAtDesc l ->
  StronglySorted grantNewerOrSame (map dtoOAuthGrant (includeServiceClient st l)).
Proof.
  apply StronglySorted_map_omap. intros a1 a2 [g1 c1] [g2 c2] HR H1 H2.
  destruct (serviceClients st !! ServiceGrant.serviceClientId a1); [| discriminate].
  destruct (serviceClients st !! ServiceGrant.serviceClientId a2); [| discriminate].
  simpl in H1, H2. injection H1 as <- <-. injection H2 as <- <-. exact HR.
Qed.

Lemma In_includeServiceClient (st : Store) (l : list ServiceGrant.t) (a : OAuthGrant.t) :
  In a (map dtoOAuthGrant (includeServiceClient st l)) <->
  exists g c, In g l /\ serviceClients st !! ServiceGrant.serviceClientId g = Some c
              /\ a = dtoOAuthGrant (g, c).
Proof.
  unfold includeServiceClient. rewrite In_map_omap. split.
  - intros (g & [g' c] & Hin & Hk & ->).
    destruct (serviceClients st !! ServiceGrant.serviceClientId g) as [c'|] eqn:Hc;
      [| discriminate].
    simpl in Hk. injection Hk as <- <-. exists g, c'. auto.
  - intros (g & c & Hin & Hc & ->). exists g, (g, c). rewrite Hc. auto.
Qed.

Lemma getAllOwnedApps_In (st : Store) (requester : string) (apps : list OAuthApp.t)
    (a : OAuthApp.t) :
  getAllOwnedApps st requester = apiOk apps ->
  In a apps <->
  exists k c u, serviceClients st !! k = Some c /\
    ServiceClient.createdByUserId c = requester /\
    ServiceClient.revokedAt c = None /\
    users st !! requester = Some u /\ a = dtoOAuthApp (c, u).
Proof.
  intros [= <-]. rewrite In_includeCreatedByUser. split.
  - intros (c & u & Hin & Hu & ->). unfold orderByCreatedAtDesc in Hin.
    rewrite In_merge_sort, filter_In, in_snd_map_to_list_any in Hin.
    destruct Hin as ([k Hk] & Hp). apply andb_prop in Hp as [Ho Hr].
    apply String.eqb_eq in Ho.
    exists k, c, u. rewrite <- Ho. repeat split; try assumption.
    destruct (ServiceClient.revokedAt c); [discriminate | reflexivity].
  - intros (k & c & u & Hk & Ho & Hr & Hu & ->). exists c, u.
    unfold orderByCreatedAtDesc.
    rewrite In_merge_sort, filter_In, in_snd_map_to_list_any, Ho, Hr, String.eqb_refl.
    split; [split; [exists k; exact Hk | reflexivity] | split; [exact Hu | reflexivity]].
Qed.

Lemma getAllApps_In (st : Store) (apps : list OAuthApp.t) (a : OAuthApp.t) :
  getAllApps st = apiOk apps ->
  In a apps <->
  exists k c u, serviceClients st !! k = Some c /\
    ServiceClient.revokedAt c = None /\
    users st !! ServiceClient.createdByUserId c = Some u /\ a = dtoOAuthApp (c, u).
Proof.
  intros [= <-]. rewrite In_includeCreatedByUser. split.
  - intros (c & u & Hin & Hu & ->). unfold orderByCreatedAtDesc in Hin.
    rewrite In_merge_sort, filter_In, in_snd_map_to_list_any in Hin.
    destruct Hin as ([k Hk] & Hr).
    exists k, c, u. repeat split; try assumption.
    destruct (ServiceClient.revokedAt c); [discriminate | reflexivity].
  - intros (k & c & u & Hk & Hr & Hu & ->). exists c, u.
    unfold orderByCreatedAtDesc.
    rewrite In_merge_sort, filter_In, in_snd_map_to_list_any, Hr.
    split; [split; [exists k; exact Hk | reflexivity] | split; [exact Hu | reflexivity]].
Qed.

(** Extra X1 (getAllOwnedApps): the caller's listing is ordered newest
    first and contains exactly the DTOs of the caller's non-revoked apps
    (joined with the caller's user row); revoked apps and other users'
    apps never appear. *)
Theorem getAllOwnedApps_active_owned_newest_first (st : Store) (requester : string) :
  exists apps, getAllOwnedApps st requester = apiOk apps /\
  StronglySorted appNewerOrSame apps /\
  (forall a, In a apps <->
     exists k c u, serviceClients st !! k = Some c /\
       ServiceClient.createdByUserId c = requester /\
       ServiceClient.revokedAt c = None /\
       users st !! requester = Some u /\ a = dtoOAuthApp (c, u)).
Proof.
  eexists. split; [reflexivity |]. split.
  - apply includeCreatedByUser_sorted, StronglySorted_merge_sort; typeclasses eauto.
  - intros a. apply getAllOwnedApps_In. reflexivity.
Qed.

(** Extra X2 (getAllApps): the administrator listing is ordered newest
    first and contains exactly the DTOs of the non-revoked apps whose
    creator row exists; no revoked app is ever listed. *)
Theorem getAllApps_active_newest_first (st : Store) :
  exists apps, getAllApps st = apiOk apps /\
  StronglySorted appNewerOrSame apps /\
  (forall a, In a apps <->
     exists k c u, serviceClients st !! k = Some c /\
       ServiceClient.revokedAt c = None /\
       users st !! ServiceClient.createdByUserId c = Some u /\ a = dtoOAuthApp (c, u)).
Proof.
  eexists. split; [reflexivity |]. split.
  - apply includeCreatedByUser_sorted, StronglySorted_merge_sort; typeclasses eauto.
  - intros a. apply getAllApps_In. reflexivity.
Qed.

(** Extra X3 (getOwnedOAuthGrants, dtoOAuthGrant): the caller's grant
    listing is ordered newest first and contains exactly the DTOs of the
    caller's non-revoked grants whose client row exists, each named after
    that client; other users' grants never appear. *)
Theorem getOwnedOAuthGrants_active_owned_newest_first (st : Store) (requester : string) :
  exists grants, getOwnedOAuthGrants st requester = apiOk grants /\
  StronglySorted grantNewerOrSame grants /\
  (forall a, In a grants <->
     exists k g c, serviceGrants st !! k = Some g /\
       ServiceGrant.userId g = requester /\
       ServiceGrant.revokedAt g = None /\
       serviceClients st !! ServiceGrant.serviceClientId g = Some c /\
       a = dtoOAuthGrant (g, c) /\ OAuthGrant.serviceName a = ServiceClient.name c).
Proof.
  eexists. split; [reflexivity |]. split.
  - apply includeServiceClient_sorted, StronglySorted_merge_sort; typeclasses eauto.
  - intros a. rewrite In_includeServiceClient. split.
    + intros (g & c & Hin & Hc & ->).
      rewrite In_merge_sort, filter_In, in_snd_map_to_list_any in Hin.
      destruct Hin as ([k Hk] & Hp). apply andb_prop in Hp as [Ho Hr].
      apply String.eqb_eq in Ho.
      exists k, g, c. repeat split; try assumption.
      destruct (ServiceGrant.revokedAt g); [discriminate | reflexivity].
    + intros (k & g & c & Hk & Ho & Hr & Hc & -> & _). exists g, c.
      rewrite In_merge_sort, filter_In, in_snd_map_to_list_any, Ho, Hr, String.eqb_refl.
      split; [split; [exists k; exact Hk | reflexivity] | split; [exact Hc | reflexivity]].
Qed.

Lemma includeServiceClient_setClient_name (st : Store) (id : string)
    (c c' : ServiceClient.t) (l : list ServiceGrant.t) :
  serviceClients st !! id = Some c -> ServiceClient.name c' = ServiceClient.name c ->
  map dtoOAuthGrant (includeServiceClient (setClient st id c') l)
  = map dtoOAuthGrant (includeServiceClient st l).
Proof.
  intros Hc Hn. unfold includeServiceClient, setClient. simpl.
  induction l as [|g l IH]; [reflexivity |]. simpl in IH |- *.
  destruct (decide (ServiceGrant.serviceClientId g = id)) as [Heq | Hne].
  - rewrite Heq, lookup_insert_eq, Hc. simpl. rewrite Hn. f_equal. exact IH.
  - rewrite lookup_insert_ne by congruence.
    destruct (serviceClients st !! ServiceGrant.serviceClientId g); simpl;
      [f_equal |]; exact IH.
Qed.

(** Extra X4 (revokeApp, getOwnedOAuthGrants): revoking an app does not
    touch its grants: every user's grant listing after revokeApp is the
    same as before, so grants to the revoked app are still listed. *)
Theorem revokeApp_keeps_grant_listings (st : Store) (requester id : string) (now : Date)
    (user : string) :
  getOwnedOAuthGrants (snd (revokeApp st requester id now)) user
  = getOwnedOAuthGrants st user.
Proof.
  unfold revokeApp.
  destruct (findActiveOwnedClient st id requester) as [app|] eqn:F; [| reflexivity].
  apply findActiveOwnedClient_Some in F as (Hl & _ & _). simpl.
  unfold getOwnedOAuthGrants.
  change (serviceGrants (setClient st id (ServiceClient.set_revokedAt (Some now) app)))
    with (serviceGrants st).
  rewrite (includeServiceClient_setClient_name st id app); [reflexivity | exact Hl |].
  reflexivity.
Qed.

(* ------------------------------------------------------------------ *)
(** ** What the router never does: delete rows, touch users, reassign *)

(** A later version of an app row: same id, owner, client id and creation
    time, and a revoked row stays revoked at the same time. *)
Definition clientKept (c c' : ServiceClient.t) : Prop :=
  ServiceClient.id c' = ServiceClient.id c /\
  ServiceClient.createdByUserId c' = ServiceClient.createdByUserId c /\
  ServiceClient.clientId c' = ServiceClient.clientId c /\
  ServiceClient.createdAt c' = ServiceClient.createdAt c /\
  (ServiceClient.revokedAt c <> None -> ServiceClient.revokedAt c' = ServiceClient.revokedAt c).

(** A later version of a grant row: same id, user, client, scopes and
    creation time, and a revoked grant stays revoked. *)
Definition grantKept (g g' : ServiceGrant.t) : Prop :=
  ServiceGrant.id g' = ServiceGrant.id g /\
  ServiceGrant.userId g' = ServiceGrant.userId g /\
  ServiceGrant.serviceClientId g' = ServiceGrant.serviceClientId g /\
  ServiceGrant.scopes g' = ServiceGrant.scopes g /\
  ServiceGrant.createdAt g' = ServiceGrant.createdAt g /\
  (ServiceGrant.revokedAt g <> None -> ServiceGrant.revokedAt g' <> None).

Definition keeps (st st' : Store) : Prop :=
  users st' = users st /\
  (forall k c, serviceClients st !! k = Some c ->
     exists c', serviceClients st' !! k = Some c' /\ clientKept c c') /\
  (forall k g, serviceGrants st !! k = Some g ->
     exists g', serviceGrants st' !! k = Some g' /\ grantKept g g').

Lemma clientKept_refl (c : ServiceClient.t) : clientKept c c.
Proof. repeat split; auto. Qed.

Lemma grantKept_refl (g : ServiceGrant.t) : grantKept g g.
Proof. repeat split; auto. Qed.

Lemma clientKept_trans (c1 c2 c3 : ServiceClient.t) :
  clientKept c1 c2 -> clientKept c2 c3 -> clientKept c1 c3.
Proof.
  intros (H1 & H2 & H3 & H4 & H5) (G1 & G2 & G3 & G4 & G5).
  repeat split; try congruence.
  intros Hr. rewrite G5 by (rewrite H5 by exact Hr; exact Hr). apply H5, Hr.
Qed.

Lemma grantKept_trans (g1 g2 g3 : ServiceGrant.t) :
  grantKept g1 g2 -> grantKept g2 g3 -> grantKept g1 g3.
Proof.
  intros (H1 & H2 & H3 & H4 & H5 & H6) (G1 & G2 & G3 & G4 & G5 & G6).
  repeat split; try congruence. intros Hr. apply G6, H6, Hr.
Qed.

Lemma keeps_refl (st : Store) : keeps st st.
Proof.
  split; [reflexivity | split].
  - intros k c H. exists c. split; [exact H | apply clientKept_refl].
  - intros k g H. exists g. split; [exact H | apply grantKept_refl].
Qed.

Lemma keeps_trans (st1 st2 st3 : Store) : keeps st1 st2 -> keeps st2 st3 -> keeps st1 st3.
Proof.
  intros (U1 & C1 & G1) (U2 & C2 & G2). split; [congruence | split].
  - intros k c H. destruct (C1 _ _ H) as (c2 & H2 & K2).
    destruct (C2 _ _ H2) as (c3 & H3 & K3). exists c3. split; [exact H3 |].
    exact (clientKept_trans _ _ _ K2 K3).
  - intros k g H. destruct (G1 _ _ H) as (g2 & H2 & K2).
    destruct (G2 _ _ H2) as (g3 & H3 & K3). exists g3. split; [exact H3 |].
    exact (grantKept_trans _ _ _ K2 K3).
Qed.

Lemma keeps_setClient (st : Store) (k : string) (c' : ServiceClient.t) :
  (forall c, serviceClients st !! k = Some c -> clientKept c c') ->
  keeps st (setClient st k c').
Proof.
  intros Hk. split; [reflexivity | split].
  - intros k0 c H. unfold setClient; simpl.
    destruct (decide (k = k0)) as [<- | Hne].
    + exists c'. rewrite lookup_insert_eq. split; [reflexivity | exact (Hk _ H)].
    + exists c. rewrite lookup_insert_ne by exact Hne. split; [exact H | apply clientKept_refl].
  - intros k0 g H. exists g. split; [exact H | apply grantKept_refl].
Qed.

Lemma keeps_setGrant (st : Store) (k : string) (g' : ServiceGrant.t) :
  (forall g, serviceGrants st !! k = Some g -> grantKept g g') ->
  keeps st (setGrant st k g').
Proof.
  intros Hk. split; [reflexivity | split].
  - intros k0 c H. exists c. split; [exact H | apply clientKept_refl].
  - intros k0 g H. unfold setGrant; simpl.
    destruct (decide (k = k0)) as [<- | Hne].
    + exists g'. rewrite lookup_insert_eq. split; [reflexivity | exact (Hk _ H)].
    + exists g. rewrite lookup_insert_ne by exact Hne. split; [exact H | apply grantKept_refl].
Qed.

Lemma step_keeps
    (hostname : string -> string) (normalizeRedirectUris : list string -> list string)
    (hashSecret : string -> string) (st : Store) (op : Op) :
  keeps st (step hostname normalizeRedirectUris hashSecret st op).
Proof.
  destruct op as [r id s | r input | r id now | r input i ci s now | id l | r gid now];
    simpl.
  - unfold rotateAppSecret.
    destruct (findActiveOwnedClient st id r) as [app|]; [| apply keeps_refl].
    unfold rotateServiceClientSecret.
    destruct (serviceClients st !! id) as [c|] eqn:Hc; [| apply keeps_refl].
    apply keeps_setClient. rewrite Hc. intros c0 [= <-]. repeat split; auto.
  - unfold updateApp.
    destruct (findActiveOwnedClient st (UpdateAppInput.id input) r) as [app|] eqn:F;
      [| apply keeps_refl].
    apply findActiveOwnedClient_Some in F as (Hl & _ & _).
    destruct (match UpdateAppInput.scopes input with
              | Some scopes => match validateScopes scopes with
                               | inl msg => inl msg
                               | inr r => inr (Some r) end
              | None => inr None end); [apply keeps_refl |].
    destruct (_ && _); [apply keeps_refl |].
    destruct (users _ !! _); simpl; apply keeps_setClient; rewrite Hl;
      intros c0 [= <-]; repeat split; auto.
  - unfold revokeApp.
    destruct (findActiveOwnedClient st id r) as [app|] eqn:F; [| apply keeps_refl].
    apply findActiveOwnedClient_Some in F as (Hl & _ & Hr).
    apply keeps_setClient. rewrite Hl. intros c0 [= <-]. repeat split; auto.
    intros Hn. contradiction.
  - unfold createApp.
    destruct (validateScopes (CreateAppInput.scopes input)); [apply keeps_refl |].
    destruct (Nat.ltb 0 _); [apply keeps_refl |].
    unfold createServiceClient.
    destruct (serviceClients st !! i) as [c|] eqn:Hi; [apply keeps_refl |].
    destruct (users st !! r); [| apply keeps_refl].
    apply keeps_setClient. rewrite Hi. discriminate.
  - unfold updateAppTrustLevel.
    destruct (serviceClients st !! id) as [c|] eqn:Hc; [| apply keeps_refl].
    apply keeps_setClient. rewrite Hc. intros c0 [= <-]. repeat split; auto.
  - unfold revokeOAuthGrant.
    destruct (serviceGrants st !! gid) as [g|] eqn:Hg; [| apply keeps_refl].
    destruct (negb _); [apply keeps_refl |].
    apply keeps_setGrant. rewrite Hg. intros g0 [= <-]. repeat split; auto.
Qed.

Lemma exec_keeps
    (hostname : string -> string) (normalizeRedirectUris : list string -> list string)
    (hashSecret : string -> string) (ops : list Op) (st : Store) :
  keeps st (exec hostname normalizeRedirectUris hashSecret st ops).
Proof.
  unfold exec. revert st. induction ops as [|op ops IH]; intros st; simpl;
    [apply keeps_refl |].
  eapply keeps_trans; [apply step_keeps | apply IH].
Qed.

(** Extra X5 (the developer router's mutations): no sequence of router
    mutations deletes an app row or changes an existing app's id, owner,
    client id or creation time; a revoked app stays revoked with its
    original revocation time (revocation is a permanent soft delete). *)
Theorem exec_never_deletes_or_reassigns_apps
    (hostname : string -> string) (normalizeRedirectUris : list string -> list string)
    (hashSecret : string -> string) (ops : list Op) (st : Store) (k : string)
    (c : ServiceClient.t) :
  serviceClients st !! k = Some c ->
  exists c', serviceClients (exec hostname normalizeRedirectUris hashSecret st ops) !! k = Some c'
    /\ ServiceClient.id c' = ServiceClient.id c
    /\ ServiceClient.createdByUserId c' = ServiceClient.createdByUserId c
    /\ ServiceClient.clientId c' = ServiceClient.clientId c
    /\ ServiceClient.createdAt c' = ServiceClient.createdAt c
    /\ (ServiceClient.revokedAt c <> None -> ServiceClient.revokedAt c' = ServiceClient.revokedAt c).
Proof.
  intros H. destruct (exec_keeps hostname normalizeRedirectUris hashSecret ops st)
    as (_ & HC & _).
  destruct (HC _ _ H) as (c' & Hc' & K). exists c'. split; [exact Hc' | exact K].
Qed.

(** Extra X6 (the developer router's mutations): no sequence of router
    mutations changes the users table or deletes a grant row; an existing
    grant keeps its id, user, client, scopes and creation time, and a
    revoked grant stays revoked. *)
Theorem exec_never_deletes_grants_or_touches_users
    (hostname : string -> string) (normalizeRedirectUris : list string -> list string)
    (hashSecret : string -> string) (ops : list Op) (st : Store) :
  users (exec hostname normalizeRedirectUris hashSecret st ops) = users st /\
  (forall k g, serviceGrants st !! k = Some g ->
   exists g', serviceGrants (exec hostname normalizeRedirectUris hashSecret st ops) !! k = Some g'
     /\ ServiceGrant.id g' = ServiceGrant.id g
     /\ ServiceGrant.userId g' = ServiceGrant.userId g
     /\ ServiceGrant.serviceClientId g' = ServiceGrant.serviceClientId g
     /\ ServiceGrant.scopes g' = ServiceGrant.scopes g
     /\ ServiceGrant.createdAt g' = ServiceGrant.createdAt g
     /\ (ServiceGrant.revokedAt g <> None -> ServiceGrant.revokedAt g' <> None)).
Proof.
  destruct (exec_keeps hostname normalizeRedirectUris hashSecret ops st)
    as (HU & _ & HG).
  split; [exact HU |]. intros k g H.
  destruct (HG _ _ H) as (g' & Hg' & K). exists g'. split; [exact Hg' | exact K].
Qed.

(* ------------------------------------------------------------------ *)
(** ** Revoking an app *)

Lemma revokeApp_ok (st st1 : Store) (requester id : string) (now : Date) :
  revokeApp st requester id now = (apiOk tt, st1) ->
  exists app, findActiveOwnedClient st id requester = Some app /\
    st1 = setClient st id (ServiceClient.set_revokedAt (Some now) app).
Proof.
  unfold revokeApp. destruct (findActiveOwnedClient st id requester) as [app|];
    [| discriminate].
  intros [= <-]. exists app. split; reflexivity.
Qed.

Lemma findActiveOwnedClient_revoked (st : Store) (id requester : string)
    (c : ServiceClient.t) (now : Date) :
  findActiveOwnedClient (setClient st id (ServiceClient.set_revokedAt (Some now) c))
    id requester = None.
Proof.
  unfold findActiveOwnedClient, setClient. simpl. rewrite lookup_insert_eq. simpl.
  rewrite andb_false_r. reflexivity.
Qed.

(** Extra X7 (revokeApp, rotateAppSecret, updateApp): once revokeApp has
    succeeded, the app is dead for its owner: a second revokeApp (at any
    time), a rotateAppSecret and any updateApp of that id all return
    NOT_FOUND and leave the store as it is, so the first revocation time is
    kept. *)
Theorem revokeApp_then_app_not_found
    (hostname : string -> string) (normalizeRedirectUris : list string -> list string)
    (hashSecret : string -> string) (st st1 : Store) (requester id : string)
    (now now' : Date) (newSecret : string) (input : UpdateAppInput.t) :
  revokeApp st requester id now = (apiOk tt, st1) ->
  UpdateAppInput.id input = id ->
  revokeApp st1 requester id now' = (apiErr NOT_FOUND (appNotFoundMessage id), st1) /\
  rotateAppSecret hashSecret st1 requester id newSecret
    = (apiErr NOT_FOUND (appNotFoundMessage id), st1) /\
  updateApp hostname normalizeRedirectUris st1 requester input
    = (apiErr NOT_FOUND (appNotFoundMessage id), st1) /\
  exists c, serviceClients st1 !! id = Some c /\ ServiceClient.revokedAt c = Some now.
Proof.
  intros H Hid. apply revokeApp_ok in H as (app & _ & ->).
  unfold revokeApp, rotateAppSecret, updateApp. rewrite Hid.
  rewrite (findActiveOwnedClient_revoked st id requester app now).
  split; [reflexivity | split; [reflexivity | split; [reflexivity |]]].
  eexists. unfold setClient. simpl. rewrite lookup_insert_eq. split; reflexivity.
Qed.

Lemma revokeApp_then_app_not_found_witness :
  revokeApp exampleStore "user-1" "app-1" 300
    = (apiOk tt, snd (revokeApp exampleStore "user-1" "app-1" 300)) /\
  UpdateAppInput.id renameInput = "app-1" /\
  updateApp simpleHostname (fun l => l)
    (snd (revokeApp exampleStore "user-1" "app-1" 300)) "user-1" renameInput
  = (apiErr NOT_FOUND (appNotFoundMessage "app-1"),
     snd (revokeApp exampleStore "user-1" "app-1" 300)).
Proof.
  split; [reflexivity | split; [reflexivity |]].
  apply (revokeApp_then_app_not_found simpleHostname (fun l => l) (fun s => s)
           exampleStore _ "user-1" "app-1" 300 400 "s" renameInput);
    reflexivity.
Defined.

(** Extra X8 (revokeApp, getAllOwnedApps, getAllApps): in a store whose
    app rows are keyed by their ids, after a successful revokeApp no
    listing (the owner's, any other user's, or the administrator's)
    contains an app with that id. *)
Theorem revokeApp_removes_app_from_listings (st st1 : Store) (requester id : string)
    (now : Date) :
  clientKeysAreIds st ->
  revokeApp st requester id now = (apiOk tt, st1) ->
  (forall user apps, getAllOwnedApps st1 user = apiOk apps ->
     forall a, In a apps -> OAuthApp.id a <> id) /\
  (forall apps, getAllApps st1 = apiOk apps -> forall a, In a apps -> OAuthApp.id a <> id).
Proof.
  intros Hkeys H. apply revokeApp_ok in H as (app & _ & ->).
  assert (Hdead : forall k c, serviceClients
                     (setClient st id (ServiceClient.set_revokedAt (Some now) app)) !! k = Some c ->
                   ServiceClient.revokedAt c = None -> ServiceClient.id c <> id).
  { intros k c Hk Hr. unfold setClient in Hk. simpl in Hk.
    destruct (decide (k = id)) as [-> | Hne].
    - rewrite lookup_insert_eq in Hk. injection Hk as <-. discriminate.
    - rewrite lookup_insert_ne in Hk by congruence. rewrite (Hkeys _ _ Hk). exact Hne. }
  split.
  - intros user apps Hl a Ha. apply (getAllOwnedApps_In _ _ _ a Hl) in Ha
      as (k & c & u & Hk & _ & Hr & _ & ->).
    exact (Hdead _ _ Hk Hr).
  - intros apps Hl a Ha. apply (getAllApps_In _ _ a Hl) in Ha as (k & c & u & Hk & Hr & _ & ->).
    exact (Hdead _ _ Hk Hr).
Qed.

Lemma revokeApp_removes_app_from_listings_witness :
  clientKeysAreIds exampleStore /\
  revokeApp exampleStore "user-1" "app-1" 300
    = (apiOk tt, snd (revokeApp exampleStore "user-1" "app-1" 300)) /\
  (forall apps, getAllApps (snd (revokeApp exampleStore "user-1" "app-1" 300)) = apiOk apps ->
     forall a, In a apps -> OAuthApp.id a <> "app-1").
Proof.
  assert (Hk : clientKeysAreIds exampleStore).
  { intros k c H. simpl in H. apply lookup_singleton_Some in H as [<- <-]. reflexivity. }
  split; [exact Hk | split; [reflexivity |]].
  exact (proj2 (revokeApp_removes_app_from_listings exampleStore _ "user-1" "app-1" 300 Hk
                  eq_refl)).
Defined.

(* ------------------------------------------------------------------ *)
(** ** Updating and creating apps *)

(** Extra X9 (updateApp): a successful update writes exactly one row, the
    caller's app, and keeps its id, trust level, client id, secret verifier,
    owner, creation time and (null) revocation; every field the input
    leaves out keeps its stored value, and the response is the DTO of the
    written row with the caller as creator. *)
Theorem updateApp_success_keeps_identity
    (hostname : string -> string) (normalizeRedirectUris : list string -> list string)
    (st st1 : Store) (requester : string) (input : UpdateAppInput.t) (a : OAuthApp.t) :
  updateApp hostname normalizeRedirectUris st requester input = (apiOk a, st1) ->
  exists c c' u,
    serviceClients st !! UpdateAppInput.id input = Some c /\
    st1 = setClient st (UpdateAppInput.id input) c' /\
    users st !! requester = Some u /\ a = dtoOAuthApp (c', u) /\
    ServiceClient.id c' = ServiceClient.id c /\
    ServiceClient.trustLevel c' = ServiceClient.trustLevel c /\
    ServiceClient.clientId c' = ServiceClient.clientId c /\
    ServiceClient.clientSecretHash c' = ServiceClient.clientSecretHash c /\
    ServiceClient.createdByUserId c' = requester /\
    ServiceClient.createdAt c' = ServiceClient.createdAt c /\
    ServiceClient.revokedAt c' = None /\
    ServiceClient.name c' = nullish (UpdateAppInput.name input) (ServiceClient.name c) /\
    ServiceClient.description c'
      = nullish (UpdateAppInput.description input) (ServiceClient.description c) /\
    ServiceClient.homepageUrl c'
      = nullish (UpdateAppInput.homepageUrl input) (ServiceClient.homepageUrl c) /\
    ServiceClient.iconUrl c' = nullish (UpdateAppInput.iconUrl input) (ServiceClient.iconUrl c) /\
    (UpdateAppInput.redirectUris input = None ->
       ServiceClient.redirectUris c' = ServiceClient.redirectUris c) /\
    (UpdateAppInput.scopes input = None -> ServiceClient.scopes c' = ServiceClient.scopes c).
Proof.
  unfold updateApp.
  destruct (findActiveOwnedClient st (UpdateAppInput.id input) requester) as [app|] eqn:F;
    [| intros Habs; congruence].
  apply findActiveOwnedClient_Some in F as (Hl & Ho & Hr).
  destruct (UpdateAppInput.scopes input) as [sc|] eqn:Hsc.
  - destruct (validateScopes sc) as [msg|rs]; [intros Habs; congruence |].
    destruct (_ && _); [intros Habs; congruence |].
    cbn [users setClient ServiceClient.createdByUserId]. rewrite Ho.
    destruct (users st !! requester) as [u|] eqn:Hu; [| intros Habs; congruence].
    intros [= <- <-]. eexists app, _, u.
    split; [exact Hl | split; [reflexivity | split; [reflexivity | split; [reflexivity |]]]].
    cbn. repeat split; auto;
      intros Hn; first [discriminate Hn | rewrite Hn; reflexivity | reflexivity].
  - destruct (_ && _); [intros Habs; congruence |].
    cbn [users setClient ServiceClient.createdByUserId]. rewrite Ho.
    destruct (users st !! requester) as [u|] eqn:Hu; [| intros Habs; congruence].
    intros [= <- <-]. eexists app, _, u.
    split; [exact Hl | split; [reflexivity | split; [reflexivity | split; [reflexivity |]]]].
    cbn. repeat split; auto;
      intros Hn; first [discriminate Hn | rewrite Hn; reflexivity | reflexivity].
Qed.

Lemma updateApp_success_keeps_identity_witness :
  exists a st1,
    updateApp simpleHostname (fun l => l) exampleStore "user-1" renameInput = (apiOk a, st1) /\
    exists c c',
      serviceClients exampleStore !! "app-1" = Some c /\
      ServiceClient.name c' = "Renamed" /\
      ServiceClient.trustLevel c' = ServiceClient.trustLevel c /\
      ServiceClient.clientSecretHash c' = ServiceClient.clientSecretHash c.
Proof.
  eexists _, _. split; [reflexivity |].
  match goal with
  | |- exists c c', _ /\ _ /\ _ => idtac
  end.
  destruct (updateApp_success_keeps_identity simpleHostname (fun l => l) exampleStore _
              "user-1" renameInput _ eq_refl)
    as (c & c' & u & Hc & _ & _ & _ & _ & Ht & _ & Hs & _ & _ & _ & Hn & _).
  exists c, c'. split; [exact Hc |]. split; [exact Hn | split; [exact Ht | exact Hs]].
Defined.

(** [{ id }]: an update that sets no field. *)
Definition emptyPatch (id : string) : UpdateAppInput.t :=
  UpdateAppInput.mk id None None None None None None.

(** Extra X10 (updateApp): an update of the caller's active app that sets
    no field succeeds, returns the app as stored, and leaves the store
    exactly as it was (the write rewrites the same row). *)
Theorem updateApp_empty_patch_is_noop
    (hostname : string -> string) (normalizeRedirectUris : list string -> list string)
    (st : Store) (requester id : string) (c : ServiceClient.t) (u : User.t) :
  serviceClients st !! id = Some c ->
  ServiceClient.createdByUserId c = requester ->
  ServiceClient.revokedAt c = None ->
  users st !! requester = Some u ->
  updateApp hostname normalizeRedirectUris st requester (emptyPatch id)
  = (apiOk (dtoOAuthApp (c, u)), st).
Proof.
  intros Hc Ho Hr Hu. unfold updateApp, findActiveOwnedClient. cbn [UpdateAppInput.id emptyPatch].
  rewrite Hc, Ho, String.eqb_refl, Hr.
  cbn [andb is_null UpdateAppInput.scopes UpdateAppInput.homepageUrl UpdateAppInput.redirectUris
       UpdateAppInput.name UpdateAppInput.description UpdateAppInput.iconUrl emptyPatch
       truthy_string truthy_list orb nullish option_map].
  assert (Hsame : ServiceClient.mk (ServiceClient.id c) (ServiceClient.name c)
            (ServiceClient.description c) (ServiceClient.homepageUrl c)
            (ServiceClient.iconUrl c) (ServiceClient.redirectUris c) (ServiceClient.scopes c)
            (ServiceClient.trustLevel c) (ServiceClient.clientId c)
            (ServiceClient.clientSecretHash c) (ServiceClient.createdByUserId c)
            (ServiceClient.createdAt c) (ServiceClient.revokedAt c) = c)
    by (destruct c; reflexivity).
  rewrite Hsame. unfold setClient. rewrite (insert_id _ _ _ Hc). cbn [users].
  rewrite Ho, Hu. destruct st; reflexivity.
Qed.

Lemma updateApp_empty_patch_is_noop_witness :
  serviceClients exampleStore !! "app-1" = Some exampleApp /\
  users exampleStore !! "user-1" = Some alice /\
  updateApp simpleHostname (fun l => l) exampleStore "user-1" (emptyPatch "app-1")
  = (apiOk (dtoOAuthApp (exampleApp, alice)), exampleStore).
Proof.
  split; [reflexivity | split; [reflexivity |]].
  apply updateApp_empty_patch_is_noop; reflexivity.
Defined.

(** Extra X11 (createApp, getAllOwnedApps): a successful createApp returns
    the plaintext secret it was given, an untrusted app created by the
    caller with the normalised scope list, keeps every existing app row,
    and the returned app (whose creator is the caller's user row) is in
    the caller's listing afterwards. *)
Theorem createApp_success_listed
    (hostname : string -> string) (normalizeRedirectUris : list string -> list string)
    (hashSecret : string -> string) (st st1 : Store) (requester : string)
    (input : CreateAppInput.t) (newId newClientId newSecret : string) (now : Date)
    (app : OAuthApp.t) (secret : string) :
  createApp hostname normalizeRedirectUris hashSecret st requester input
    newId newClientId newSecret now = (apiOk (app, secret), st1) ->
  secret = newSecret /\
  OAuthApp.scopes app = normalizeScopes (CreateAppInput.scopes input) /\
  OAuthApp.trustLevel app = UNTRUSTED /\
  (exists u, users st !! requester = Some u /\
     OAuthApp.createdBy app
     = OAuthApp.mkCreatedBy (User.id u) (User.handle u) (User.displayName u)) /\
  (forall k c, serviceClients st !! k = Some c -> serviceClients st1 !! k = Some c) /\
  exists apps, getAllOwnedApps st1 requester = apiOk apps /\ In app apps.
Proof.
  unfold createApp.
  destruct (validateScopes (CreateAppInput.scopes input)) as [msg|rs] eqn:Hv;
    [intros Habs; congruence |].
  apply validateScopes_inr in Hv as [-> _].
  destruct (Nat.ltb 0 _); [intros Habs; congruence |].
  unfold createServiceClient.
  destruct (serviceClients st !! newId) as [c0|] eqn:Hi; [intros Habs; congruence |].
  destruct (users st !! requester) as [u|] eqn:Hu; [| intros Habs; congruence].
  intros [= <- <- <-].
  split; [reflexivity | split; [reflexivity | split; [reflexivity |]]].
  split; [exists u; split; reflexivity |].
  split.
  - intros k c Hk. unfold setClient; simpl.
    rewrite lookup_insert_ne by congruence. exact Hk.
  - eexists. split; [reflexivity |].
    apply (getAllOwnedApps_In _ _ _ _ eq_refl).
    exists newId, (ServiceClient.mk newId (CreateAppInput.name input)
          (CreateAppInput.description input) (CreateAppInput.homepageUrl input)
          (CreateAppInput.iconUrl input)
          (normalizeRedirectUris (CreateAppInput.redirectUris input))
          (normalizeScopes (CreateAppInput.scopes input)) UNTRUSTED newClientId
          (hashSecret newSecret) requester now None), u.
    unfold setClient; simpl. rewrite lookup_insert_eq.
    repeat split; [exact Hu].
Qed.

Definition exampleCreateInput : CreateAppInput.t :=
  CreateAppInput.mk "Second" "" "https://two.example.com" ""
    ["https://two.example.com/cb"] [" user:read "; "user:read"].

Lemma createApp_success_listed_witness :
  exists app st1,
    createApp simpleHostname (fun l => l) (fun s => "h:" ++ s) exampleStore "user-2"
      exampleCreateInput "app-2" "svc_two" "secret-2" 500 = (apiOk (app, "secret-2"), st1) /\
    OAuthApp.scopes app = ["user:read"] /\
    exists apps, getAllOwnedApps st1 "user-2" = apiOk apps /\ In app apps.
Proof.
  eexists _, _. split; [reflexivity |].
  match goal with
  | |- OAuthApp.scopes ?a = _ /\ _ =>
      destruct (createApp_success_listed simpleHostname (fun l => l) (fun s => "h:" ++ s)
                  exampleStore _ "user-2" exampleCreateInput "app-2" "svc_two" "secret-2" 500
                  a "secret-2" eq_refl) as (_ & Hs & _ & _ & _ & Hl)
  end.
  split; [rewrite Hs; reflexivity | exact Hl].
Defined.

(* ------------------------------------------------------------------ *)
(** ** A listing after a write to one app row *)

(** The shared query of [getAllOwnedApps] and [getAllApps]: filter, order
    by [createdAt] descending, join the creator, map to DTOs. *)
Definition appsPipeline (st : Store) (p : ServiceClient.t -> bool) : list OAuthApp.t :=
  map dtoOAuthApp (includeCreatedByUser st
    (orderByCreatedAtDesc (List.filter p (map_to_list (serviceClients st)).*2))).

Lemma getAllOwnedApps_pipeline (st : Store) (requester : string) :
  getAllOwnedApps st requester
  = apiOk (appsPipeline st (fun c => String.eqb (ServiceClient.createdByUserId c) requester
                                     && is_null (ServiceClient.revokedAt c))).
Proof. reflexivity. Qed.

Lemma getAllApps_pipeline (st : Store) :
  getAllApps st = apiOk (appsPipeline st (fun c => is_null (ServiceClient.revokedAt c))).
Proof. reflexivity. Qed.

Lemma snd_fmap_map_to_list_any {V} (f : V -> V) (m : gmap string V) :
  (map_to_list (f <$> m)).*2 = map f (map_to_list m).*2.
Proof.
  rewrite map_to_list_fmap. induction (map_to_list m) as [|[k v] l IH];
    [reflexivity | cbn; f_equal; exact IH].
Qed.

Lemma filter_map_comm {A} (p : A -> bool) (f : A -> A) (l : list A) :
  (forall x, p (f x) = p x) -> List.filter p (map f l) = map f (List.filter p l).
Proof.
  intros Hp. induction l as [|x l IH]; simpl; [reflexivity |].
  rewrite Hp. destruct (p x); simpl; rewrite IH; reflexivity.
Qed.

Section RowUpdate.
Variables (st : Store) (id : string) (c : ServiceClient.t).
(** The new version of a row, computed from the old one. *)
Variable upd : ServiceClient.t -> ServiceClient.t.
(** The corresponding change of the listed DTO. *)
Variable g : OAuthApp.t -> OAuthApp.t.
Variable p : ServiceClient.t -> bool.
Hypothesis Hkeys : clientKeysAreIds st.
Hypothesis Hc : serviceClients st !! id = Some c.
Hypothesis Hcreated : forall x, ServiceClient.createdAt (upd x) = ServiceClient.createdAt x.
Hypothesis Howner : forall x, ServiceClient.createdByUserId (upd x) = ServiceClient.createdByUserId x.
Hypothesis Hp : forall x, p (upd x) = p x.
Hypothesis Hg_row : forall u, users st !! ServiceClient.createdByUserId c = Some u ->
  g (dtoOAuthApp (c, u)) = dtoOAuthApp (upd c, u).
Hypothesis Hg_other : forall a, OAuthApp.id a <> id -> g a = a.

Definition updAt (x : ServiceClient.t) : ServiceClient.t :=
  if String.eqb (ServiceClient.id x) id then upd x else x.

Lemma insert_as_fmap :
  <[id := upd c]> (serviceClients st) = updAt <$> serviceClients st.
Proof.
  apply map_eq. intros k. rewrite lookup_fmap.
  destruct (decide (k = id)) as [-> | Hne].
  - rewrite lookup_insert_eq, Hc. simpl. unfold updAt.
    rewrite (Hkeys _ _ Hc), String.eqb_refl. reflexivity.
  - rewrite lookup_insert_ne by congruence.
    destruct (serviceClients st !! k) as [x|] eqn:Hx; simpl; [| reflexivity].
    unfold updAt. rewrite (Hkeys _ _ Hx).
    destruct (String.eqb_spec k id); [contradiction | reflexivity].
Qed.

Lemma include_updAt (l : list ServiceClient.t) :
  (forall x, In x l -> exists k, serviceClients st !! k = Some x) ->
  map dtoOAuthApp (includeCreatedByUser st (map updAt l))
  = map g (map dtoOAuthApp (includeCreatedByUser st l)).
Proof.
  unfold includeCreatedByUser.
  induction l as [|x l IH]; intros Hin; [reflexivity |].
  simpl in IH |- *.
  assert (Hx : updAt x = upd x /\ x = c \/ updAt x = x /\ ServiceClient.id x <> id).
  { unfold updAt. destruct (Hin x (or_introl eq_refl)) as [k Hk].
    pose proof (Hkeys _ _ Hk) as Hid.
    destruct (String.eqb_spec (ServiceClient.id x) id) as [E | E].
    - left. split; [reflexivity |]. subst k. rewrite E in Hk. congruence.
    - right. split; [reflexivity | exact E]. }
  assert (Hu : ServiceClient.createdByUserId (updAt x) = ServiceClient.createdByUserId x).
  { unfold updAt. destruct (String.eqb _ _); [apply Howner | reflexivity]. }
  rewrite Hu.
  destruct (users st !! ServiceClient.createdByUserId x) as [u|] eqn:Hux; simpl.
  - f_equal; [| apply IH; intros y Hy; apply Hin; right; exact Hy].
    destruct Hx as [[-> ->] | [-> Hne]].
    + symmetry. apply Hg_row. exact Hux.
    + symmetry. apply Hg_other. exact Hne.
  - apply IH. intros y Hy. apply Hin. right. exact Hy.
Qed.

Lemma appsPipeline_update :
  appsPipeline (setClient st id (upd c)) p = map g (appsPipeline st p).
Proof.
  unfold appsPipeline, setClient. cbn [serviceClients].
  rewrite insert_as_fmap, snd_fmap_map_to_list_any.
  rewrite (filter_map_comm p updAt)
    by (intros x; unfold updAt; destruct (String.eqb _ _); [apply Hp | reflexivity]).
  unfold orderByCreatedAtDesc. rewrite merge_sort_map.
  2: { intros x y. unfold createdAtDesc, updAt.
       destruct (String.eqb (ServiceClient.id x) id), (String.eqb (ServiceClient.id y) id);
         rewrite ?Hcreated; reflexivity. }
  change (includeCreatedByUser {| users := users st;
            serviceClients := updAt <$> serviceClients st;
            serviceGrants := serviceGrants st |}) with (includeCreatedByUser st).
  apply include_updAt. intros x Hx.
  rewrite In_merge_sort, filter_In, in_snd_map_to_list_any in Hx. apply Hx.
Qed.
End RowUpdate.

(* ------------------------------------------------------------------ *)
(** ** The administrator apps page ([pages/admin/apps/index.tsx]) *)

Module AdminPage.
(** The [apps] and [error] state of [AdminApps]; [AdminApp] has the
    fields of [OAuthApp]. *)
Record t := mk {
  apps : list OAuthApp.t;
  error : option string
}.
End AdminPage.

(** [{ ...app, trustLevel }] *)
Definition setAppTrustLevel (l : OAuthTrustLevel) (a : OAuthApp.t) : OAuthApp.t :=
  OAuthApp.mk (OAuthApp.id a) (OAuthApp.name a) (OAuthApp.description a)
    (OAuthApp.homepageUrl a) (OAuthApp.iconUrl a) (OAuthApp.redirectUris a)
    (OAuthApp.scopes a) l (OAuthApp.clientId a) (OAuthApp.createdBy a)
    (OAuthApp.createdAt a).

(** [updateTrust(appId, trustLevel)] once the mutation has answered with
    [res] ([Thrown] is a rejected promise, handled by [catch]). *)
Definition updateTrust (page : AdminPage.t) (appId : string)
    (res : Outcome OAuthTrustLevel) : AdminPage.t :=
  match res with
  | apiOk lvl =>
      AdminPage.mk
        (map (fun app => if String.eqb (OAuthApp.id app) appId
                         then setAppTrustLevel lvl app else app) (AdminPage.apps page))
        None
  | apiErr _ message => AdminPage.mk (AdminPage.apps page) (Some message)
  | Thrown _ => AdminPage.mk (AdminPage.apps page) (Some "Unable to update trust.")
  end.

(** Extra X12 (updateTrust of the admin page, updateAppTrustLevel,
    getAllApps): in a store whose app rows are keyed by their ids, the
    page's local update of its list after updateAppTrustLevel answers
    yields exactly the list a fresh getAllApps would return, whether the
    app existed or not. *)
Theorem admin_updateTrust_matches_reload (st : Store) (id : string)
    (lvl : OAuthTrustLevel) (apps : list OAuthApp.t) :
  clientKeysAreIds st ->
  getAllApps st = apiOk apps ->
  getAllApps (snd (updateAppTrustLevel st id lvl))
  = apiOk (AdminPage.apps (updateTrust (AdminPage.mk apps None) id
             (fst (updateAppTrustLevel st id lvl)))).
Proof.
  intros Hkeys Hl. unfold updateAppTrustLevel.
  destruct (serviceClients st !! id) as [c|] eqn:Hc; [| exact Hl].
  cbn [fst snd updateTrust AdminPage.apps].
  rewrite getAllApps_pipeline in Hl |- *. injection Hl as <-. f_equal.
  apply (appsPipeline_update st id c (ServiceClient.set_trustLevel lvl)); try reflexivity.
  - exact Hkeys.
  - exact Hc.
  - intros u _. simpl. rewrite (Hkeys _ _ Hc), String.eqb_refl. reflexivity.
  - intros a Hne. destruct (String.eqb_spec (OAuthApp.id a) id); [contradiction | reflexivity].
Qed.

Lemma admin_updateTrust_matches_reload_witness :
  clientKeysAreIds exampleStore /\
  getAllApps exampleStore = apiOk [dtoOAuthApp (exampleApp, alice)] /\
  getAllApps (snd (updateAppTrustLevel exampleStore "app-1" TRUSTED))
  = apiOk (AdminPage.apps (updateTrust (AdminPage.mk [dtoOAuthApp (exampleApp, alice)] None)
             "app-1" (fst (updateAppTrustLevel exampleStore "app-1" TRUSTED)))).
Proof.
  assert (Hk : clientKeysAreIds exampleStore).
  { intros k c H. simpl in H. apply lookup_singleton_Some in H as [<- <-]. reflexivity. }
  split; [exact Hk | split; [reflexivity |]].
  apply admin_updateTrust_matches_reload; [exact Hk | reflexivity].
Defined.

(* ------------------------------------------------------------------ *)
(** ** The developer apps page ([pages/developer/apps/index.tsx]) *)

(** [s.split(sep)] for a one-character separator. *)
Fixpoint splitOn (sep : Ascii.ascii) (s : string) : list string :=
  match s with
  | EmptyString => [""]
  | String ch rest =>
      if Ascii.eqb ch sep then "" :: splitOn sep rest
      else match splitOn sep rest with
           | [] => [String ch ""]
           | w :: ws => String ch w :: ws
           end
  end.

Definition newline : Ascii.ascii := Ascii.ascii_of_nat 10.

(** [modalRedirectUris]:
    [redirectUris.split("\n").map(item => item.trim()).filter(Boolean)] *)
Definition modalRedirectUris (redirectUris : string) : list string :=
  List.filter (fun item => negb (String.eqb item "")) (map trim (splitOn newline redirectUris)).

Module DevPage.
Inductive Mode := create | edit.

(** [formState] *)
Record Form := mkForm {
  name : string;
  description : string;
  homepageUrl : string;
  iconUrl : string;
  redirectUris : string;
  scopes : list string
}.

(** The state of [DeveloperApps] that [saveEdit] reads or sets. *)
Record t := mk {
  apps : list OAuthApp.t;
  error : option string;
  saveNotice : option string;
  form : Form;
  appModalOpen : bool;
  appModalMode : Mode;
  appModalId : option string
}.
End DevPage.

(** [beginEdit(app)]: the form filled from the app. *)
Definition beginEdit (page : DevPage.t) (app : OAuthApp.t) : DevPage.t :=
  DevPage.mk (DevPage.apps page) (DevPage.error page) (DevPage.saveNotice page)
    (DevPage.mkForm (OAuthApp.name app) (OAuthApp.description app)
       (OAuthApp.homepageUrl app) (OAuthApp.iconUrl app)
       (join (String newline "") (OAuthApp.redirectUris app)) (OAuthApp.scopes app))
    true DevPage.edit (Some (OAuthApp.id app)).

(** The input [saveEdit] sends to [developer.updateApp]. *)
Definition saveEditInput (appModalId : string) (form : DevPage.Form) : UpdateAppInput.t :=
  UpdateAppInput.mk appModalId (Some (DevPage.name form)) (Some (DevPage.description form))
    (Some (DevPage.homepageUrl form)) (Some (DevPage.iconUrl form))
    (Some (modalRedirectUris (DevPage.redirectUris form))) (Some (DevPage.scopes form)).

(** [saveEdit()] once the mutation has answered with [res]. *)
Definition saveEdit (page : DevPage.t) (res : Outcome OAuthApp.t) : DevPage.t :=
  match DevPage.appModalId page with
  | None => page
  | Some appModalId =>
      match res with
      | apiOk app =>
          DevPage.mk
            (map (fun x => if String.eqb (OAuthApp.id x) appModalId then app else x)
               (DevPage.apps page))
            None (Some "App updated. Existing authorizations remain active.")
            (DevPage.form page) false DevPage.create None
      | apiErr _ message =>
          DevPage.mk (DevPage.apps page) (Some ("Unable to update app: " ++ message)) None
            (DevPage.form page) (DevPage.appModalOpen page) (DevPage.appModalMode page)
            (DevPage.appModalId page)
      | Thrown _ =>
          DevPage.mk (DevPage.apps page) (Some "Unable to update app.") None
            (DevPage.form page) (DevPage.appModalOpen page) (DevPage.appModalMode page)
            (DevPage.appModalId page)
      end
  end.

(** Extra X13 (saveEdit of the developer page, updateApp,
    getAllOwnedApps): in a store whose app rows are keyed by their ids, for
    a signed-in caller whose page shows the caller's listing, the page's
    local replacement of the edited app after updateApp answers yields
    exactly the list a fresh getAllOwnedApps would return, on success and
    on every error. *)
Theorem saveEdit_matches_reload
    (hostname : string -> string) (normalizeRedirectUris : list string -> list string)
    (st : Store) (requester appModalId : string) (page : DevPage.t) :
  clientKeysAreIds st ->
  is_Some (users st !! requester) ->
  getAllOwnedApps st requester = apiOk (DevPage.apps page) ->
  DevPage.appModalId page = Some appModalId ->
  getAllOwnedApps (snd (updateApp hostname normalizeRedirectUris st requester
                          (saveEditInput appModalId (DevPage.form page)))) requester
  = apiOk (DevPage.apps (saveEdit page
      (fst (updateApp hostname normalizeRedirectUris st requester
              (saveEditInput appModalId (DevPage.form page)))))).
Proof.
  intros Hkeys [u Hu] Hl Hid. unfold saveEdit. rewrite Hid.
  unfold updateApp. cbn [UpdateAppInput.id saveEditInput].
  destruct (findActiveOwnedClient st appModalId requester) as [app|] eqn:F; [| exact Hl].
  apply findActiveOwnedClient_Some in F as (Hc & Ho & Hr).
  cbn [UpdateAppInput.scopes saveEditInput].
  destruct (validateScopes (DevPage.scopes (DevPage.form page))) as [msg | ns0];
    [exact Hl |].
  set (ns := Some ns0).
  destruct (_ && _); [exact Hl |].
  cbn [users setClient ServiceClient.createdByUserId].
  replace (users st !! ServiceClient.createdByUserId app) with (Some u)
    by (rewrite Ho; exact (eq_sym Hu)).
  cbn [fst snd DevPage.apps]. rewrite getAllOwnedApps_pipeline in Hl |- *.
  injection Hl as Hl. rewrite <- Hl. f_equal.
  set (input := saveEditInput appModalId (DevPage.form page)).
  apply (appsPipeline_update st appModalId app
    (fun x => ServiceClient.mk (ServiceClient.id x)
       (nullish (UpdateAppInput.name input) (ServiceClient.name x))
       (nullish (UpdateAppInput.description input) (ServiceClient.description x))
       (nullish (UpdateAppInput.homepageUrl input) (ServiceClient.homepageUrl x))
       (nullish (UpdateAppInput.iconUrl input) (ServiceClient.iconUrl x))
       (nullish (option_map normalizeRedirectUris (UpdateAppInput.redirectUris input))
          (ServiceClient.redirectUris x))
       (nullish ns (ServiceClient.scopes x))
       (ServiceClient.trustLevel x) (ServiceClient.clientId x)
       (ServiceClient.clientSecretHash x) (ServiceClient.createdByUserId x)
       (ServiceClient.createdAt x) (ServiceClient.revokedAt x))); try reflexivity.
  - exact Hkeys.
  - exact Hc.
  - intros u' Hu'. rewrite Ho, Hu in Hu'. injection Hu' as <-.
    cbn [dtoOAuthApp OAuthApp.id]. rewrite (Hkeys _ _ Hc), String.eqb_refl. reflexivity.
  - intros a Hne. destruct (String.eqb_spec (OAuthApp.id a) appModalId);
      [contradiction | reflexivity].
Qed.

Definition exampleDevPage : DevPage.t :=
  beginEdit (DevPage.mk [dtoOAuthApp (exampleApp, alice)] None None
               (DevPage.mkForm "" "" "" "" "" []) false DevPage.create None)
    (dtoOAuthApp (exampleApp, alice)).

Lemma saveEdit_matches_reload_witness :
  clientKeysAreIds exampleStore /\
  is_Some (users exampleStore !! "user-1") /\
  getAllOwnedApps exampleStore "user-1" = apiOk (DevPage.apps exampleDevPage) /\
  DevPage.appModalId exampleDevPage = Some "app-1" /\
  getAllOwnedApps (snd (updateApp simpleHostname (fun l => l) exampleStore "user-1"
                          (saveEditInput "app-1" (DevPage.form exampleDevPage)))) "user-1"
  = apiOk (DevPage.apps (saveEdit exampleDevPage
      (fst (updateApp simpleHostname (fun l => l) exampleStore "user-1"
              (saveEditInput "app-1" (DevPage.form exampleDevPage)))))).
Proof.
  assert (Hk : clientKeysAreIds exampleStore).
  { intros k c H. simpl in H. apply lookup_singleton_Some in H as [<- <-]. reflexivity. }
  assert (Hu : is_Some (users exampleStore !! "user-1")) by (eexists; reflexivity).
  split; [exact Hk | split; [exact Hu | split; [reflexivity | split; [reflexivity |]]]].
  apply saveEdit_matches_reload; [exact Hk | exact Hu | reflexivity | reflexivity].
Defined.

(** [s] contains no [sep] character. *)
Fixpoint lacksChar (sep : Ascii.ascii) (s : string) : bool :=
  match s with
  | EmptyString => true
  | String ch rest => negb (Ascii.eqb ch sep) && lacksChar sep rest
  end.

Lemma splitOn_lacks (sep : Ascii.ascii) (x : string) :
  lacksChar sep x = true -> splitOn sep x = [x].
Proof.
  induction x as [|ch x IH]; [reflexivity |]. simpl.
  intros H. apply andb_prop in H as [Hc Hx].
  destruct (Ascii.eqb ch sep); [discriminate |]. rewrite IH by exact Hx. reflexivity.
Qed.

Lemma splitOn_app (sep : Ascii.ascii) (x rest : string) :
  lacksChar sep x = true -> splitOn sep (x ++ String sep rest) = x :: splitOn sep rest.
Proof.
  induction x as [|ch x IH]; simpl.
  - intros _. rewrite Ascii.eqb_refl. reflexivity.
  - intros H. apply andb_prop in H as [Hc Hx].
    destruct (Ascii.eqb ch sep); [discriminate |]. rewrite IH by exact Hx. reflexivity.
Qed.

Lemma splitOn_join (sep : Ascii.ascii) (xs : list string) :
  xs <> [] -> Forall (fun x => lacksChar sep x = true) xs ->
  splitOn sep (join (String sep "") xs) = xs.
Proof.
  induction xs as [|x xs IH]; intros Hne Hall; [contradiction |].
  inversion Hall as [|? ? Hx Hxs]; subst.
  destruct xs as [|y ys].
  - simpl. apply splitOn_lacks. exact Hx.
  - change (join (String sep "") (x :: y :: ys))
      with (x ++ String sep "" ++ join (String sep "") (y :: ys)).
    replace (String sep "" ++ join (String sep "") (y :: ys))
      with (String sep (join (String sep "") (y :: ys))) by reflexivity.
    rewrite splitOn_app by exact Hx.
    rewrite IH by (discriminate || exact Hxs). reflexivity.
Qed.

(** Extra X14 (beginEdit and modalRedirectUris of the developer page):
    opening an app for editing and saving the form unchanged sends back
    the app's redirect URIs exactly, when each URI is non-empty, contains
    no newline and has no leading or trailing white space in the sense of
    String.prototype.trim (joining with newlines and splitting, trimming
    and dropping empty lines round-trips). *)
Theorem beginEdit_redirectUris_round_trip (page : DevPage.t) (app : OAuthApp.t) :
  Forall (fun u => u <> "" /\ lacksChar newline u = true /\ trim u = u)
    (OAuthApp.redirectUris app) ->
  modalRedirectUris (DevPage.redirectUris (DevPage.form (beginEdit page app)))
  = OAuthApp.redirectUris app.
Proof.
  intros Hall. cbn [beginEdit DevPage.form DevPage.redirectUris]. unfold modalRedirectUris.
  destruct (OAuthApp.redirectUris app) as [|x xs] eqn:E; [reflexivity |].
  rewrite splitOn_join.
  2: discriminate.
  2: { eapply Forall_impl; [exact Hall | intros u (_ & H & _); exact H]. }
  clear E. induction Hall as [|u us (Hne & _ & Ht) _ IH]; [reflexivity |].
  simpl. rewrite Ht. destruct (String.eqb_spec u ""); [contradiction |].
  simpl. rewrite IH. reflexivity.
Qed.

Lemma beginEdit_redirectUris_round_trip_witness :
  Forall (fun u => u <> "" /\ lacksChar newline u = true /\ trim u = u)
    ["https://app.example.com/cb"; "https://app.example.com/alt"] /\
  modalRedirectUris (DevPage.redirectUris (DevPage.form
    (beginEdit exampleDevPage
       (OAuthApp.mk "app-1" "Example" "" "https://app.example.com" ""
          ["https://app.example.com/cb"; "https://app.example.com/alt"] [] UNTRUSTED
          "svc_example" (OAuthApp.mkCreatedBy "user-1" "alice" "Alice") 100))))
  = ["https://app.example.com/cb"; "https://app.example.com/alt"].
Proof.
  assert (H : Forall (fun u => u <> "" /\ lacksChar newline u = true /\ trim u = u)
    ["https://app.example.com/cb"; "https://app.example.com/alt"]).
  { repeat constructor; try discriminate; vm_compute; reflexivity. }
  split; [exact H |].
  apply (beginEdit_redirectUris_round_trip exampleDevPage
    (OAuthApp.mk "app-1" "Example" "" "https://app.example.com" ""
       ["https://app.example.com/cb"; "https://app.example.com/alt"] [] UNTRUSTED
       "svc_example" (OAuthApp.mkCreatedBy "user-1" "alice" "Alice") 100)).
  exact H.
Defined.

(* ------------------------------------------------------------------ *)
(** ** The authentication-only [protectedProcedure] (first [trpc.ts]) *)

(** The body of [t.procedure.use(...)] in the earlier [protectedProcedure]
    ([{ ...ctx, user: ctx.user }] forwards every other field). *)
Definition protectedProcedureV1 (ctx : Trpc.Context) : Trpc.Middleware :=
  match Trpc.user ctx with
  | None => Trpc.TRPCError Trpc.UNAUTHORIZED "Authentication required"
  | Some u => Trpc.Next (Trpc.mkContext (Some u) (Trpc.scopes ctx) (Trpc.actor ctx))
  end.

(** Extra X15 (protectedProcedure of both trpc.ts versions, createContext):
    the scope-aware middleware only narrows the authentication-only one: a
    procedure that declares no scopes, any context without scopes, and in
    particular every first-party session built by createContext get exactly
    the old behaviour (same error, same forwarded context), and whatever
    the scopes, a request the old middleware rejects is rejected. *)
Theorem scoped_middleware_refines_v1 :
  (forall ctx, Trpc.protectedProcedure [] ctx = protectedProcedureV1 ctx) /\
  (forall S ctx, Trpc.scopes ctx = [] -> Trpc.protectedProcedure S ctx = protectedProcedureV1 ctx) /\
  (forall S u, Trpc.protectedProcedure S (Trpc.createContext u)
               = protectedProcedureV1 (Trpc.createContext u)) /\
  (forall S ctx, Trpc.allowed (Trpc.protectedProcedure S ctx) = true ->
                 Trpc.allowed (protectedProcedureV1 ctx) = true).
Proof.
  assert (Hnil : forall S ctx, Trpc.scopes ctx = [] ->
            Trpc.protectedProcedure S ctx = protectedProcedureV1 ctx).
  { intros S [u sc a] Hs. simpl in Hs. subst sc.
    unfold Trpc.protectedProcedure, protectedProcedureV1. simpl.
    destruct u; [rewrite andb_false_r |]; reflexivity. }
  split; [| split; [exact Hnil | split]].
  - intros [u sc a]. unfold Trpc.protectedProcedure, protectedProcedureV1. simpl.
    destruct u; reflexivity.
  - intros S u. apply Hnil. reflexivity.
  - intros S [u sc a]. unfold Trpc.protectedProcedure, protectedProcedureV1. simpl.
    destruct u; [reflexivity | discriminate].
Qed.

(* ------------------------------------------------------------------ *)
(** ** The [comment] router *)

Module Comment.
(** [db.Comment] *)
Record t := mk {
  id : string;
  authorId : string;
  timelapseId : string;
  content : string;
  createdAt : Date
}.
End Comment.

Record CommentStore := mkCommentStore {
  cUsers : gmap string User.t;
  comments : gmap string Comment.t
}.

(** [Comment]: [createdAt] stands for [createdAt.getTime()]. *)
Record CommentDto (PublicUser : Type) := mkCommentDto {
  cd_id : string;
  cd_content : string;
  cd_author : PublicUser;
  cd_createdAt : Date
}.
Arguments mkCommentDto {PublicUser}.

Definition unpublishedCommentMessage : string :=
  "Cannot post comments on unpublished timelapses.".

Section CommentRouter.
(** [dtoPublicUser] of the user router (not in the sources). *)
Context {PublicUser : Type} (dtoPublicUser : User.t -> PublicUser).
(** [getTimelapseById(id, user)] of the timelapse router (not in the
    sources): an [Err] (as the [apiErr] its [toApiError] gives) or the
    timelapse, of which only [isPublished] is read. *)
Context {Timelapse : Type} (isPublished : Timelapse -> bool)
  (getTimelapseById : string -> User.t -> (ApiErrorKind * string) + Timelapse).

Definition dtoComment (comment : Comment.t * User.t) : CommentDto PublicUser :=
  let '(c, author) := comment in
  mkCommentDto (Comment.id c) (Comment.content c) (dtoPublicUser author) (Comment.createdAt c).

(** [comment.create]; the row gets the fresh id [newId] and the time [now];
    [include: { author: true }] joins the caller's row. *)
Definition createComment (cs : CommentStore) (caller : User.t) (id content : string)
    (newId : string) (now : Date) : Outcome (CommentDto PublicUser) * CommentStore :=
  match getTimelapseById id caller with
  | inl (kind, message) => (apiErr kind message, cs)
  | inr timelapse =>
      if negb (isPublished timelapse) then (apiErr ERROR unpublishedCommentMessage, cs)
      else
        match comments cs !! newId, cUsers cs !! User.id caller with
        | Some _, _ => (Thrown "Unique constraint failed on the fields: (id)", cs)
        | None, None => (Thrown "Foreign key constraint failed: authorId", cs)
        | None, Some author =>
            let comment := Comment.mk newId (User.id caller) id content now in
            (apiOk (dtoComment (comment, author)),
             mkCommentStore (cUsers cs) (<[newId := comment]> (comments cs)))
        end
  end.

(** [comment.delete] *)
Definition deleteComment (cs : CommentStore) (caller : User.t) (commentId : string)
  : Outcome unit * CommentStore :=
  match comments cs !! commentId with
  | None => (apiErr NOT_FOUND "Comment not found.", cs)
  | Some comment =>
      if negb (String.eqb (Comment.authorId comment) (User.id caller))
      then (apiErr NO_PERMISSION "You can only delete your own comments.", cs)
      else (apiOk tt, mkCommentStore (cUsers cs) (delete commentId (comments cs)))
  end.
End CommentRouter.

Definition exampleComments : CommentStore :=
  mkCommentStore (<["user-1" := alice]> (<["user-2" := bob]> ∅))
    {[ "comment-1" := Comment.mk "comment-1" "user-2" "tl-1" "Nice!" 50 ]}.

(** A timelapse lookup for the fixtures: "tl-1" is published, "tl-2" is
    not, anything else is not found. *)
Definition exampleTimelapses (id : string) (_ : User.t) : (ApiErrorKind * string) + bool :=
  if String.eqb id "tl-1" then inr true
  else if String.eqb id "tl-2" then inr false
  else inl (NOT_FOUND, "Timelapse not found").

(** Extra X16 (comment.create): a failed lookup of the timelapse returns
    that error and an unpublished timelapse returns ERROR "Cannot post
    comments on unpublished timelapses.", both without a write; a
    successful create adds exactly one row, authored by the caller, on
    the given timelapse with the given content, and answers with its DTO
    whose author is the caller's public user. *)
Theorem createComment_outcomes {PublicUser Timelapse : Type}
    (dtoPublicUser : User.t -> PublicUser) (isPublished : Timelapse -> bool)
    (getTimelapseById : string -> User.t -> (ApiErrorKind * string) + Timelapse)
    (cs : CommentStore) (caller : User.t) (id content newId : string) (now : Date) :
  (forall kind message, getTimelapseById id caller = inl (kind, message) ->
     createComment dtoPublicUser isPublished getTimelapseById cs caller id content newId now
     = (apiErr kind message, cs)) /\
  (forall tl, getTimelapseById id caller = inr tl -> isPublished tl = false ->
     createComment dtoPublicUser isPublished getTimelapseById cs caller id content newId now
     = (apiErr ERROR unpublishedCommentMessage, cs)) /\
  (forall dto cs', createComment dtoPublicUser isPublished getTimelapseById cs caller id
                     content newId now = (apiOk dto, cs') ->
     comments cs !! newId = None /\
     comments cs' = <[newId := Comment.mk newId (User.id caller) id content now]> (comments cs) /\
     cUsers cs' = cUsers cs /\
     (exists author, cUsers cs !! User.id caller = Some author /\
        dto = mkCommentDto newId content (dtoPublicUser author) now)).
Proof.
  unfold createComment. split; [| split].
  - intros kind message ->. reflexivity.
  - intros tl -> ->. reflexivity.
  - intros dto cs'.
    destruct (getTimelapseById id caller) as [[kind message] | tl]; [congruence |].
    destruct (negb (isPublished tl)); [congruence |].
    destruct (comments cs !! newId) eqn:Hn; [congruence |].
    destruct (cUsers cs !! User.id caller) as [author|] eqn:Ha; [| congruence].
    intros [= <- <-]. simpl. split; [reflexivity | split; [reflexivity | split; [reflexivity |]]].
    exists author. split; reflexivity.
Qed.

(** Extra X17 (comment.delete): a delete succeeds exactly when the comment
    exists and the caller is its author; a success removes that one row and
    keeps every other comment and the users, and a repeated delete of the
    same id returns NOT_FOUND. *)
Theorem deleteComment_only_author_once (cs : CommentStore) (caller : User.t)
    (commentId : string) :
  (fst (deleteComment cs caller commentId) = apiOk tt <->
   exists c, comments cs !! commentId = Some c /\ Comment.authorId c = User.id caller) /\
  (forall cs', deleteComment cs caller commentId = (apiOk tt, cs') ->
     comments cs' !! commentId = None /\
     (forall k, k <> commentId -> comments cs' !! k = comments cs !! k) /\
     cUsers cs' = cUsers cs /\
     forall caller', deleteComment cs' caller' commentId
                     = (apiErr NOT_FOUND "Comment not found.", cs')).
Proof.
  unfold deleteComment. split.
  - destruct (comments cs !! commentId) as [c|]; simpl.
    + destruct (String.eqb_spec (Comment.authorId c) (User.id caller)) as [E | E]; simpl.
      * split; [intros _; exists c; split; [reflexivity | exact E] | reflexivity].
      * split; [discriminate | intros (c' & [= <-] & E'); contradiction].
    + split; [discriminate | intros (c' & H & _); discriminate].
  - intros cs'. destruct (comments cs !! commentId) as [c|]; [| congruence].
    destruct (negb _); [congruence |]. intros [= <-]. simpl.
    rewrite lookup_delete_eq. split; [reflexivity | split; [| split; [reflexivity |]]].
    + intros k Hk. rewrite lookup_delete_ne by congruence. reflexivity.
    + intros caller'. reflexivity.
Qed.

(** Extra X18 (comment.create, comment.delete): a comment its author has
    just created can be deleted by that author, which restores the comments
    table exactly; anyone else is refused with NO_PERMISSION. *)
Theorem createComment_then_delete_round_trip {PublicUser Timelapse : Type}
    (dtoPublicUser : User.t -> PublicUser) (isPublished : Timelapse -> bool)
    (getTimelapseById : string -> User.t -> (ApiErrorKind * string) + Timelapse)
    (cs cs1 : CommentStore) (caller other : User.t) (id content newId : string) (now : Date)
    (dto : CommentDto PublicUser) :
  createComment dtoPublicUser isPublished getTimelapseById cs caller id content newId now
    = (apiOk dto, cs1) ->
  User.id other <> User.id caller ->
  deleteComment cs1 other newId
    = (apiErr NO_PERMISSION "You can only delete your own comments.", cs1) /\
  deleteComment cs1 caller newId = (apiOk tt, cs).
Proof.
  unfold createComment.
  destruct (getTimelapseById id caller) as [[kind message] | tl]; [congruence |].
  destruct (negb (isPublished tl)); [congruence |].
  destruct (comments cs !! newId) eqn:Hn; [congruence |].
  destruct (cUsers cs !! User.id caller) as [author|] eqn:Ha; [| congruence].
  intros [= _ <-] Hother. unfold deleteComment. simpl. rewrite lookup_insert_eq. simpl.
  destruct (String.eqb_spec (User.id caller) (User.id other)) as [E | _];
    [congruence |].
  split; [reflexivity |].
  rewrite String.eqb_refl. simpl. rewrite delete_insert_id by exact Hn.
  destruct cs; reflexivity.
Qed.

Definition exampleCreateComment :=
  createComment (fun u : User.t => u) (fun published : bool => published) exampleTimelapses
    exampleComments alice "tl-1" "Hello" "comment-2" 300.

Lemma createComment_then_delete_round_trip_witness :
  deleteComment (snd exampleCreateComment) bob "comment-2"
    = (apiErr NO_PERMISSION "You can only delete your own comments.", snd exampleCreateComment) /\
  deleteComment (snd exampleCreateComment) alice "comment-2" = (apiOk tt, exampleComments).
Proof.
  apply (createComment_then_delete_round_trip (fun u : User.t => u)
           (fun published : bool => published) exampleTimelapses exampleComments
           (snd exampleCreateComment) alice bob "tl-1" "Hello" "comment-2" 300
           (mkCommentDto "comment-2" "Hello" alice 300)).
  - vm_compute. reflexivity.
  - vm_compute. discriminate.
Defined.

Lemma exec_never_deletes_or_reassigns_apps_witness :
  serviceClients exampleStore !! "app-1" = Some exampleApp /\
  exists c', serviceClients (exec (fun s => s) (fun us => us) (fun s => s) exampleStore
                               [OpRevokeApp "user-1" "app-1" 300;
                                OpUpdateAppTrustLevel "app-1" TRUSTED]) !! "app-1" = Some c'
             /\ ServiceClient.createdByUserId c' = "user-1".
Proof.
  assert (H : serviceClients exampleStore !! "app-1" = Some exampleApp) by reflexivity.
  split; [exact H |].
  destruct (exec_never_deletes_or_reassigns_apps (fun s => s) (fun us => us) (fun s => s)
              [OpRevokeApp "user-1" "app-1" 300; OpUpdateAppTrustLevel "app-1" TRUSTED]
              exampleStore "app-1" exampleApp H) as (c' & H1 & _ & H2 & _).
  exists c'. split; [exact H1 | exact H2].
Defined.

(* ------------------------------------------------------------------ *)
(** ** The [hackatime] router *)

From Stdlib Require Import ZArith.

Module HackatimeDbUser.
(** The columns of [db.User] the router reads. *)
Record t := mk {
  id : string;
  hackatimeId : option string;
  hackatimeAccessToken : option string
}.
End HackatimeDbUser.

Module HackatimeApiProject.
(** A project as [HackatimeOAuthApi.getProjects] returns it: [name] is
    [None] when [typeof p.name !== "string"]; [most_recent_heartbeat] is
    [None] for a missing or [null] value. *)
Record t := mk {
  name : option string;
  total_seconds : Z;
  most_recent_heartbeat : option string
}.
End HackatimeApiProject.

Module HackatimeProject.
(** [HackatimeProjectSchema] *)
Record t := mk {
  name : string;
  totalSeconds : Z
}.
End HackatimeProject.

Section Hackatime.
(** [new Date(s).getTime()] of a heartbeat timestamp: [None] is the [NaN]
    of a timestamp that does not parse. *)
Variable dateTime : string -> option Z.

(** [a.most_recent_heartbeat ? new Date(...).getTime() : 0] *)
Definition heartbeatTime (p : HackatimeApiProject.t) : option Z :=
  match HackatimeApiProject.most_recent_heartbeat p with
  | None => Some 0%Z
  | Some s => if String.eqb s "" then Some 0%Z else dateTime s
  end.

(** [typeof p.name === "string" && p.name.trim().length > 0] *)
Definition hasName (p : HackatimeApiProject.t) : bool :=
  match HackatimeApiProject.name p with
  | None => false
  | Some s => Nat.ltb 0 (String.length (trim s))
  end.

(** [comparator(a, b) < 0] for the comparator [bTime - aTime]: [a] goes
    before [b]. A [NaN] difference counts as [+0] (SortCompare). *)
Definition heartbeatBefore (a b : HackatimeApiProject.t) : bool :=
  match heartbeatTime a, heartbeatTime b with
  | Some aTime, Some bTime => Z.ltb (bTime - aTime) 0
  | _, _ => false
  end.

(** [Array.prototype.sort] with that comparator. The sort is stable: when
    every time is a number the comparator is consistent and the result is
    the stable sort by descending heartbeat time, computed here by
    insertion (a later element goes after every element it does not go
    before). With a [NaN] time the comparator is not consistent and
    ECMA-262 leaves the order implementation-defined; this insertion order
    is then one possible result. *)
Fixpoint insertByHeartbeat (x : HackatimeApiProject.t) (l : list HackatimeApiProject.t)
  : list HackatimeApiProject.t :=
  match l with
  | [] => [x]
  | y :: l' => if heartbeatBefore x y then x :: l
               else y :: insertByHeartbeat x l'
  end.

Definition sortByHeartbeat (l : list HackatimeApiProject.t) : list HackatimeApiProject.t :=
  fold_left (fun acc x => insertByHeartbeat x acc) l [].

Definition toHackatimeProject (p : HackatimeApiProject.t) : HackatimeProject.t :=
  HackatimeProject.mk (default "" (HackatimeApiProject.name p))
    (HackatimeApiProject.total_seconds p).

(** JavaScript truthiness of a nullable string. *)
Definition truthy (s : option string) : bool :=
  match s with None => false | Some s => negb (String.eqb s "") end.

(** [hackatime.allProjects]; [getProjects token] is [None] when the call
    throws. *)
Definition allProjects (getProjects : string -> option (list HackatimeApiProject.t))
    (users : list HackatimeDbUser.t) (requester : User.t)
  : Outcome (list HackatimeProject.t) :=
  match List.find (fun u => String.eqb (HackatimeDbUser.id u) (User.id requester)) users with
  | None => apiErr NOT_FOUND "User not found"
  | Some dbUser =>
      if negb (truthy (HackatimeDbUser.hackatimeId dbUser))
         || negb (truthy (HackatimeDbUser.hackatimeAccessToken dbUser))
      then apiErr ERROR "You must have a linked Hackatime account!"
      else
        match getProjects (default "" (HackatimeDbUser.hackatimeAccessToken dbUser)) with
        | None => apiOk []
        | Some projects =>
            apiOk (map toHackatimeProject (sortByHeartbeat (List.filter hasName projects)))
        end
  end.

(** [hackatime.timelapsesForProject]; [toString] is
    [Number.prototype.toString], the timelapse rows are abstract with the
    two columns the query filters on, and [dtoTimelapse] is the mapper of
    the timelapse router. *)
Context {TimelapseRow TimelapseDto : Type}
  (ownerId : TimelapseRow -> string) (hackatimeProject : TimelapseRow -> option string)
  (dtoTimelapse : TimelapseRow -> option User.t -> TimelapseDto)
  (toString : Z -> string).

(** [where: { hackatimeId: h }] on the nullable column. *)
Definition hasHackatimeId (h : string) (u : HackatimeDbUser.t) : bool :=
  match HackatimeDbUser.hackatimeId u with
  | Some h' => String.eqb h' h
  | None => false
  end.

Definition timelapsesForProject (users : list HackatimeDbUser.t) (rows : list TimelapseRow)
    (viewer : option User.t) (hackatimeUserId : Z) (projectKey : string)
  : Outcome (nat * list TimelapseDto) :=
  match List.find (hasHackatimeId (toString hackatimeUserId)) users with
  | None => apiOk (0, [])
  | Some subject =>
      let timelapses := List.filter (fun x =>
            String.eqb (ownerId x) (HackatimeDbUser.id subject) &&
            match hackatimeProject x with
            | Some k => String.eqb k projectKey
            | None => false
            end) rows in
      apiOk (List.length timelapses, map (fun x => dtoTimelapse x viewer) timelapses)
  end.
End Hackatime.

Section HackatimeSort.
Variable dateTime : string -> option Z.

(** A heartbeat time that is a number, and its value. *)
Definition heartbeatParsed (p : HackatimeApiProject.t) : Prop :=
  heartbeatTime dateTime p <> None.

Definition heartbeatKey (p : HackatimeApiProject.t) : Z :=
  default 0%Z (heartbeatTime dateTime p).

Local Abbreviation key := heartbeatKey.
Local Abbreviation ins := (insertByHeartbeat dateTime).

(** Descending heartbeat time. *)
Definition heartbeatDesc (a b : HackatimeApiProject.t) : Prop := (key b <= key a)%Z.

Lemma heartbeatBefore_parsed (x y : HackatimeApiProject.t) :
  heartbeatParsed x -> heartbeatParsed y ->
  heartbeatBefore dateTime x y = Z.ltb (key y) (key x).
Proof.
  unfold heartbeatParsed, heartbeatBefore, heartbeatKey.
  destruct (heartbeatTime dateTime x) as [tx|]; [| congruence].
  destruct (heartbeatTime dateTime y) as [ty|]; [| congruence].
  intros _ _. simpl.
  destruct (Z.ltb_spec (ty - tx) 0), (Z.ltb_spec ty tx); lia.
Qed.

Lemma insertByHeartbeat_Permutation (x : HackatimeApiProject.t) (l : list HackatimeApiProject.t) :
  Permutation (ins x l) (x :: l).
Proof.
  induction l as [| y l IH]; simpl; [reflexivity |].
  destruct (heartbeatBefore dateTime x y); [reflexivity |].
  rewrite IH. apply perm_swap.
Qed.

Lemma insertByHeartbeat_parsed (x : HackatimeApiProject.t) (l : list HackatimeApiProject.t) :
  heartbeatParsed x -> Forall heartbeatParsed l -> Forall heartbeatParsed (ins x l).
Proof.
  intros Hx Hl. eapply Permutation_Forall;
    [symmetry; apply insertByHeartbeat_Permutation | constructor; assumption].
Qed.

Lemma insertByHeartbeat_Sorted (x : HackatimeApiProject.t) (l : list HackatimeApiProject.t) :
  heartbeatParsed x -> Forall heartbeatParsed l ->
  Sorted heartbeatDesc l -> Sorted heartbeatDesc (ins x l).
Proof.
  unfold heartbeatDesc.
  induction l as [| y l IH]; simpl; intros Hx Hp Hs.
  - repeat constructor.
  - apply Forall_cons_iff in Hp as [Hy Hp].
    rewrite (heartbeatBefore_parsed x y Hx Hy).
    destruct (Z.ltb_spec (key y) (key x)) as [Hlt | Hge].
    + constructor; [exact Hs | constructor; lia].
    + apply Sorted_inv in Hs as [Hl Hhd]. constructor; [exact (IH Hx Hp Hl) |].
      destruct l as [| z l]; simpl.
      * constructor; lia.
      * apply Forall_cons_iff in Hp as [Hz _].
        rewrite (heartbeatBefore_parsed x z Hx Hz).
        destruct (Z.ltb (key z) (key x)); constructor; [lia |].
        apply HdRel_inv in Hhd. exact Hhd.
Qed.

Lemma filter_low_keys (v : Z) (l : list HackatimeApiProject.t) :
  Forall (fun z => (key z < v)%Z) l ->
  List.filter (fun z => Z.eqb (key z) v) l = [].
Proof.
  induction 1 as [| z l Hz _ IH]; simpl; [reflexivity |].
  destruct (Z.eqb_spec (key z) v); [lia | exact IH].
Qed.

Lemma insertByHeartbeat_stable (v : Z) (x : HackatimeApiProject.t) (l : list HackatimeApiProject.t) :
  heartbeatParsed x -> Forall heartbeatParsed l ->
  StronglySorted heartbeatDesc l ->
  List.filter (fun z => Z.eqb (key z) v) (ins x l)
  = (List.filter (fun z => Z.eqb (key z) v) l ++ (if Z.eqb (key x) v then [x] else []))%list.
Proof.
  unfold heartbeatDesc.
  induction l as [| y l IH]; simpl; intros Hx Hp Hs; [destruct (Z.eqb (key x) v); reflexivity |].
  apply Forall_cons_iff in Hp as [Hy Hp].
  apply StronglySorted_inv in Hs as [Hl Hall].
  rewrite (heartbeatBefore_parsed x y Hx Hy).
  destruct (Z.ltb_spec (key y) (key x)) as [Hlt | Hge].
  - destruct (Z.eqb_spec (key x) v) as [Ex | Ex].
    + assert (Hlow : Forall (fun z => (key z < v)%Z) (y :: l)).
      { constructor; [lia |]. eapply Forall_impl; [exact Hall |]. simpl. intros z Hz. lia. }
      pose proof (filter_low_keys v (y :: l) Hlow) as H0. simpl in H0 |- *.
      rewrite H0. simpl. destruct (Z.eqb_spec (key x) v); [reflexivity | contradiction].
    + simpl. rewrite app_nil_r. destruct (Z.eqb_spec (key x) v); [contradiction | reflexivity].
  - simpl. rewrite (IH Hx Hp Hl). destruct (Z.eqb (key y) v); reflexivity.
Qed.

Lemma sortByHeartbeat_acc (l acc : list HackatimeApiProject.t) :
  Forall heartbeatParsed l -> Forall heartbeatParsed acc ->
  StronglySorted heartbeatDesc acc ->
  let r := fold_left (fun acc x => ins x acc) l acc in
  Permutation r (acc ++ l)%list /\ StronglySorted heartbeatDesc r /\
  forall v, List.filter (fun z => Z.eqb (key z) v) r
            = List.filter (fun z => Z.eqb (key z) v) (acc ++ l)%list.
Proof.
  assert (Htr : Transitive heartbeatDesc) by (unfold heartbeatDesc; intros a b c; lia).
  revert acc. induction l as [| x l IH]; intros acc Hl Hpa Hs; simpl.
  - rewrite app_nil_r. split; [reflexivity | split; [exact Hs | reflexivity]].
  - apply Forall_cons_iff in Hl as [Hx Hl].
    assert (Hs' : StronglySorted heartbeatDesc (ins x acc)).
    { apply Sorted_StronglySorted; [exact Htr |].
      apply insertByHeartbeat_Sorted; [exact Hx | exact Hpa |].
      apply StronglySorted_Sorted, Hs. }
    destruct (IH (ins x acc) Hl (insertByHeartbeat_parsed x acc Hx Hpa) Hs')
      as (Hp & Hsr & Hf).
    split; [| split; [exact Hsr |]].
    + rewrite Hp, insertByHeartbeat_Permutation. apply Permutation_middle.
    + intros v. rewrite Hf, !List.filter_app, (insertByHeartbeat_stable v x acc Hx Hpa Hs). simpl.
      rewrite <- app_assoc. destruct (Z.eqb (key x) v); reflexivity.
Qed.
End HackatimeSort.

(** Extra X19 (hackatime.allProjects): a caller without a user row gets
    NOT_FOUND "User not found"; a user whose Hackatime id or access token is
    missing or empty gets ERROR "You must have a linked Hackatime account!";
    and when the Hackatime call fails the result is an empty project list,
    not an error. *)
Theorem allProjects_error_paths (dateTime : string -> option Z)
    (getProjects : string -> option (list HackatimeApiProject.t))
    (users : list HackatimeDbUser.t) (requester : User.t) :
  (List.find (fun u => String.eqb (HackatimeDbUser.id u) (User.id requester)) users = None ->
   allProjects dateTime getProjects users requester = apiErr NOT_FOUND "User not found") /\
  (forall dbUser,
     List.find (fun u => String.eqb (HackatimeDbUser.id u) (User.id requester)) users = Some dbUser ->
     (HackatimeDbUser.hackatimeId dbUser = None \/ HackatimeDbUser.hackatimeId dbUser = Some "" \/
      HackatimeDbUser.hackatimeAccessToken dbUser = None \/
      HackatimeDbUser.hackatimeAccessToken dbUser = Some "") ->
     allProjects dateTime getProjects users requester
     = apiErr ERROR "You must have a linked Hackatime account!") /\
  (forall dbUser hid token,
     List.find (fun u => String.eqb (HackatimeDbUser.id u) (User.id requester)) users = Some dbUser ->
     HackatimeDbUser.hackatimeId dbUser = Some hid -> hid <> "" ->
     HackatimeDbUser.hackatimeAccessToken dbUser = Some token -> token <> "" ->
     getProjects token = None ->
     allProjects dateTime getProjects users requester = apiOk []).
Proof.
  unfold allProjects. split; [| split].
  - intros ->. reflexivity.
  - intros dbUser -> H. unfold truthy.
    destruct H as [-> | [-> | [-> | ->]]]; simpl; [reflexivity | reflexivity | |];
      rewrite orb_true_r; reflexivity.
  - intros dbUser hid token -> Hid Hhid Htok Htoken Hget. unfold truthy.
    rewrite Hid, Htok. simpl.
    destruct (String.eqb_spec hid ""); [contradiction |].
    destruct (String.eqb_spec token ""); [contradiction |].
    simpl. rewrite Hget. reflexivity.
Qed.

(** Extra X20 (hackatime.allProjects): on a successful Hackatime call the
    answer lists exactly the projects whose name is a string that is not
    blank after trimming (a permutation of them), ordered by most recent
    heartbeat, newest first, keeping Hackatime's order among equal
    heartbeat times (the sort is stable), each with its own name and total
    seconds, provided the heartbeat timestamp of every such project parses
    (otherwise the comparator yields NaN and the order is
    implementation-defined). *)
Theorem allProjects_named_newest_first (dateTime : string -> option Z)
    (getProjects : string -> option (list HackatimeApiProject.t))
    (users : list HackatimeDbUser.t) (requester : User.t) (dbUser : HackatimeDbUser.t)
    (hid token : string) (projects : list HackatimeApiProject.t) :
  List.find (fun u => String.eqb (HackatimeDbUser.id u) (User.id requester)) users = Some dbUser ->
  HackatimeDbUser.hackatimeId dbUser = Some hid -> hid <> "" ->
  HackatimeDbUser.hackatimeAccessToken dbUser = Some token -> token <> "" ->
  getProjects token = Some projects ->
  (forall p, In p projects -> hasName p = true -> heartbeatTime dateTime p <> None) ->
  exists l,
    allProjects dateTime getProjects users requester = apiOk (map toHackatimeProject l) /\
    Permutation l (List.filter hasName projects) /\
    StronglySorted (heartbeatDesc dateTime) l /\
    (forall v, List.filter (fun p => Z.eqb (heartbeatKey dateTime p) v) l
               = List.filter (fun p => Z.eqb (heartbeatKey dateTime p) v)
                   (List.filter hasName projects)) /\
    Forall (fun p => exists name, HackatimeApiProject.name p = Some name /\
                      toHackatimeProject p
                      = HackatimeProject.mk name (HackatimeApiProject.total_seconds p) /\
                      trim name <> "") l.
Proof.
  intros Hfind Hid Hhid Htok Htoken Hget Hparse.
  exists (sortByHeartbeat dateTime (List.filter hasName projects)).
  assert (Hall : Forall (heartbeatParsed dateTime) (List.filter hasName projects)).
  { apply List.Forall_forall. intros p Hin. apply filter_In in Hin as [Hin Hn].
    exact (Hparse p Hin Hn). }
  destruct (sortByHeartbeat_acc dateTime (List.filter hasName projects) [] Hall
              (List.Forall_nil _) (SSorted_nil _))
    as (Hp & Hs & Hf).
  simpl in Hp, Hf.
  split; [| split; [exact Hp | split; [exact Hs | split; [exact Hf |]]]].
  - unfold allProjects, truthy. rewrite Hfind, Hid, Htok. simpl.
    destruct (String.eqb_spec hid ""); [contradiction |].
    destruct (String.eqb_spec token ""); [contradiction |].
    simpl. rewrite Hget. reflexivity.
  - apply List.Forall_forall. intros p Hin.
    apply (Permutation_in _ Hp) in Hin. apply filter_In in Hin as [_ Hn].
    unfold hasName in Hn. destruct (HackatimeApiProject.name p) as [name|] eqn:E; [| discriminate].
    exists name. split; [reflexivity | split].
    + unfold toHackatimeProject. rewrite E. reflexivity.
    + intros Ht. rewrite Ht in Hn. discriminate.
Qed.

(** Extra X21 (hackatime.timelapsesForProject): the reported count is always
    the number of timelapses returned, and the timelapses returned are the
    DTOs of exactly the rows owned by the user whose Hackatime id is the
    requested one and whose project key is exactly the requested key; with
    no such user the answer is a count of 0 and no timelapses. *)
Theorem timelapsesForProject_count_and_rows {TimelapseRow TimelapseDto : Type}
    (ownerId : TimelapseRow -> string) (hackatimeProject : TimelapseRow -> option string)
    (dtoTimelapse : TimelapseRow -> option User.t -> TimelapseDto) (toString : Z -> string)
    (users : list HackatimeDbUser.t) (rows : list TimelapseRow) (viewer : option User.t)
    (hackatimeUserId : Z) (projectKey : string) :
  exists count timelapses,
    timelapsesForProject ownerId hackatimeProject dtoTimelapse toString users rows viewer
      hackatimeUserId projectKey = apiOk (count, timelapses) /\
    count = List.length timelapses /\
    (List.find (hasHackatimeId (toString hackatimeUserId)) users = None -> timelapses = []) /\
    forall d, In d timelapses <->
      exists subject row,
        List.find (hasHackatimeId (toString hackatimeUserId)) users = Some subject /\
        In row rows /\ ownerId row = HackatimeDbUser.id subject /\
        hackatimeProject row = Some projectKey /\ d = dtoTimelapse row viewer.
Proof.
  unfold timelapsesForProject.
  destruct (List.find (hasHackatimeId (toString hackatimeUserId)) users) as [subject|] eqn:Hf.
  - eexists. eexists. split; [reflexivity |]. rewrite length_map.
    split; [reflexivity | split; [discriminate |]].
    intros d. rewrite in_map_iff. split.
    + intros (row & <- & Hin). apply filter_In in Hin as [Hin Hok].
      apply andb_prop in Hok as [Ho Hp].
      apply String.eqb_eq in Ho.
      destruct (hackatimeProject row) as [k|] eqn:Hk; [| discriminate].
      apply String.eqb_eq in Hp. subst k.
      exists subject, row. repeat split; assumption.
    + intros (s & row & [= <-] & Hin & Ho & Hp & ->). exists row. split; [reflexivity |].
      apply filter_In. split; [exact Hin |].
      rewrite Ho, Hp, !String.eqb_refl. reflexivity.
  - exists 0, []. split; [reflexivity | split; [reflexivity | split; [reflexivity |]]].
    intros d. split; [intros [] | intros (s & row & H & _); discriminate].
Qed.

Definition exampleHackatimeUsers : list HackatimeDbUser.t :=
  [HackatimeDbUser.mk "user-2" None None; HackatimeDbUser.mk "user-1" (Some "42") (Some "token-1")].

Definition exampleHackatimeProjects : list HackatimeApiProject.t :=
  [HackatimeApiProject.mk (Some "lapse") 3600 (Some "2024-05-01");
   HackatimeApiProject.mk (Some (String (Ascii.ascii_of_nat 11) (String (Ascii.ascii_of_nat 160) " ")))
     60 (Some "not a date");
   HackatimeApiProject.mk None 10 None;
   HackatimeApiProject.mk (Some "notes") 120 (Some "2024-05-02");
   HackatimeApiProject.mk (Some "old") 5 None].

Definition exampleDateTime (s : string) : option Z :=
  if String.eqb s "2024-05-02" then Some 2%Z
  else if String.eqb s "2024-05-01" then Some 1%Z
  else None.

Lemma allProjects_named_newest_first_witness :
  List.find (fun u => String.eqb (HackatimeDbUser.id u) (User.id alice)) exampleHackatimeUsers
    = Some (HackatimeDbUser.mk "user-1" (Some "42") (Some "token-1")) /\
  (forall p, In p exampleHackatimeProjects -> hasName p = true ->
     heartbeatTime exampleDateTime p <> None) /\
  exists l,
    allProjects exampleDateTime (fun _ => Some exampleHackatimeProjects) exampleHackatimeUsers alice
      = apiOk (map toHackatimeProject l) /\
    StronglySorted (heartbeatDesc exampleDateTime) l.
Proof.
  assert (Hf : List.find (fun u => String.eqb (HackatimeDbUser.id u) (User.id alice))
                 exampleHackatimeUsers
               = Some (HackatimeDbUser.mk "user-1" (Some "42") (Some "token-1")))
    by reflexivity.
  assert (Hparse : forall p, In p exampleHackatimeProjects -> hasName p = true ->
                    heartbeatTime exampleDateTime p <> None).
  { intros p Hin Hn. simpl in Hin.
    destruct Hin as [<- | [<- | [<- | [<- | [<- | []]]]]]; vm_compute in Hn |- *; congruence. }
  split; [exact Hf | split; [exact Hparse |]].
  destruct (allProjects_named_newest_first exampleDateTime (fun _ => Some exampleHackatimeProjects)
              exampleHackatimeUsers alice _ "42" "token-1" exampleHackatimeProjects Hf
              eq_refl ltac:(discriminate) eq_refl ltac:(discriminate) eq_refl Hparse)
    as (l & Hl & _ & Hs & _).
  exists l. split; [exact Hl | exact Hs].
Defined.

Example allProjects_example :
  allProjects exampleDateTime (fun _ => Some exampleHackatimeProjects) exampleHackatimeUsers alice
  = apiOk [HackatimeProject.mk "notes" 120; HackatimeProject.mk "lapse" 3600;
           HackatimeProject.mk "old" 5].
Proof. vm_compute. reflexivity. Qed.
